(** * Auto-backup file organizer: a shallow embedding and its properties

    The development follows [auto_backup_file_organizer.py].  Paths are
    lists of components, the file system is a finite map from paths to
    nodes, and every function that touches the file system or prints is a
    computation in a small state-and-exception monad. *)

From stdpp Require Import gmap strings list fin_maps pretty sorting.
From Stdlib Require Import Ascii.

Set Warnings "-clear-no-such-hyp".

(** ** Python strings

    A [str] is kept as the bytes of its UTF-8 form, so a character below
    128 is an ASCII character of the [str] and the bytes from 128 on only
    occur inside the other characters.  [str.lower] and [str.upper]
    themselves follow the Unicode tables of the interpreter and are not
    defined here: the organizer takes them as parameters ([str_lower] and
    [str_upper] below).  This module has what these two do on ASCII text,
    and the operations that are the same on bytes and on characters. *)

Module PyStr.

(** What [str.lower] and [str.upper] do to a character of an ASCII
    string. *)
Definition lower_ascii (c : ascii) : ascii :=
  let n := nat_of_ascii c in
  if (65 <=? n)%nat && (n <=? 90)%nat then ascii_of_nat (n + 32) else c.

Definition upper_ascii (c : ascii) : ascii :=
  let n := nat_of_ascii c in
  if (97 <=? n)%nat && (n <=? 122)%nat then ascii_of_nat (n - 32) else c.

Fixpoint lower (s : string) : string :=
  match s with
  | EmptyString => EmptyString
  | String c s' => String (lower_ascii c) (lower s')
  end.

Fixpoint upper (s : string) : string :=
  match s with
  | EmptyString => EmptyString
  | String c s' => String (upper_ascii c) (upper s')
  end.

Definition is_dot (c : ascii) : bool := Ascii.eqb c ".".

(** [s.rfind('.')]: index of the last dot, [None] for Python's [-1]. *)
Fixpoint rfind_dot (s : string) : option nat :=
  match s with
  | EmptyString => None
  | String c s' =>
      match rfind_dot s' with
      | Some i => Some (S i)
      | None => if is_dot c then Some 0%nat else None
      end
  end.

(** [s[:i]] and [s[i:]]. *)
Fixpoint take (i : nat) (s : string) : string :=
  match i, s with
  | S i', String c s' => String c (take i' s')
  | _, _ => EmptyString
  end.

Fixpoint drop (i : nat) (s : string) : string :=
  match i, s with
  | S i', String _ s' => drop i' s'
  | _, _ => s
  end.

(** [s.lstrip('.')]. *)
Fixpoint lstrip_dots (s : string) : string :=
  match s with
  | String c s' => if is_dot c then lstrip_dots s' else s
  | EmptyString => EmptyString
  end.

(** Truth value of a string: non-empty. *)
Definition truthy (s : string) : bool :=
  match s with EmptyString => false | _ => true end.

(** [s.isascii()] *)
Fixpoint is_ascii (s : string) : bool :=
  match s with
  | EmptyString => true
  | String c s' => (nat_of_ascii c <? 128)%nat && is_ascii s'
  end.

(** [f] does on ASCII strings what [g] does: how the interpreter's
    [str.lower] and [str.upper] relate to [lower] and [upper] above. *)
Definition agrees_on_ascii (f g : string → string) : Prop :=
  ∀ s, is_ascii s = true → f s = g s.

Definition is_slash (c : ascii) : bool := Ascii.eqb c "/".

Fixpoint has_slash (s : string) : bool :=
  match s with
  | EmptyString => false
  | String c s' => is_slash c || has_slash s'
  end.

End PyStr.

(** ** pathlib *)

(** A path is the list of its components, outermost first; [[]] is the
    root.  Paths are taken normalised (no [.] or [..], no symbolic links),
    so the lexical operations of [pathlib] and the lookups of the file
    system agree on them. *)
Abbreviation path := (list string).

Module PurePath.

(** [path.name]: the last component, empty for the root. *)
Definition name (p : path) : string := List.last p "".

(** The split point pathlib uses for [suffix] and [stem]: with
    [i = name.rfind('.')], the index [i] when [0 < i < len(name) - 1],
    so that [.bashrc] and [a.] have no suffix. *)
Definition split_point (nm : string) : option nat :=
  match PyStr.rfind_dot nm with
  | Some i =>
      if (0 <? i)%nat && (i <? String.length nm - 1)%nat then Some i else None
  | None => None
  end.

Definition suffix_of (nm : string) : string :=
  match split_point nm with
  | Some i => PyStr.drop i nm
  | None => ""
  end.

Definition stem_of (nm : string) : string :=
  match split_point nm with
  | Some i => PyStr.take i nm
  | None => nm
  end.

(** [path.suffix] and [path.stem]. *)
Definition suffix (p : path) : string := suffix_of (name p).
Definition stem (p : path) : string := stem_of (name p).

(** A string that [Path] takes as one component, or drops when it is
    empty: it has no separator and is neither [.] nor [..]. *)
Definition plain_part (s : string) : bool :=
  negb (PyStr.has_slash s) && negb (String.eqb s ".") && negb (String.eqb s "..").

(** [Path] applied to the unpacked list [parts], for parts that are
    [plain_part]s: pathlib drops the empty ones and keeps the others as
    they are.  (A part with a separator would be split, [.] would be
    dropped and a part that starts with a separator would discard the
    parts before it; the properties below that depend on the layout of a
    destination are stated for plain parts.) *)
Definition of_parts (parts : list string) : path :=
  List.filter PyStr.truthy parts.

(** [path.relative_to(other)]: the remaining components when [other] is
    a lexical prefix of [path], [None] for [ValueError]. *)
Fixpoint relative_to (p other : path) {struct other} : option path :=
  match other, p with
  | [], _ => Some p
  | o :: other', c :: p' =>
      if String.eqb o c then relative_to p' other' else None
  | _ :: _, [] => None
  end.

End PurePath.

(** ** The classifier *)

Section Classifier.

(** [str.lower] of the interpreter. *)
Variable str_lower : string → string.

(** [categories.get(path.suffix.lower(), "Other")] *)
Definition category_for (p : path) (categories : gmap string string) : string :=
  default "Other" (categories !! str_lower (PurePath.suffix p)).

End Classifier.

Definition DEFAULT_CATEGORIES : gmap string string :=
  list_to_map
    [ (".jpg", "Images"); (".jpeg", "Images"); (".png", "Images");
      (".gif", "Images"); (".webp", "Images"); (".tif", "Images");
      (".tiff", "Images"); (".svg", "Images");
      (".pdf", "Documents"); (".doc", "Documents"); (".docx", "Documents");
      (".xls", "Documents"); (".xlsx", "Documents"); (".ppt", "Documents");
      (".pptx", "Documents"); (".txt", "Documents"); (".md", "Documents");
      (".rtf", "Documents");
      (".mp3", "Audio"); (".wav", "Audio"); (".flac", "Audio"); (".aac", "Audio");
      (".mp4", "Video"); (".mov", "Video"); (".avi", "Video"); (".mkv", "Video");
      (".webm", "Video");
      (".zip", "Archives"); (".rar", "Archives"); (".7z", "Archives");
      (".tar", "Archives"); (".gz", "Archives"); (".bz2", "Archives");
      (".py", "Code"); (".js", "Code"); (".ts", "Code"); (".java", "Code");
      (".cpp", "Code"); (".c", "Code"); (".cs", "Code"); (".go", "Code");
      (".rb", "Code"); (".php", "Code"); (".sh", "Code"); (".bat", "Code");
      (".ps1", "Code"); (".json", "Code"); (".yaml", "Code"); (".yml", "Code");
      (".xml", "Code"); (".html", "Code"); (".css", "Code");
      (".dwg", "CAD"); (".dxf", "CAD"); (".rvt", "CAD"); (".skp", "CAD");
      (".obj", "CAD"); (".fbx", "CAD"); (".dae", "CAD") ].

(** ** The file system, the console and exceptions

    The file system has regular files and directories, and the failures
    modelled are the ones the organizer meets on them: an entry that is
    missing, a regular file where a directory is needed, a directory
    where a file is needed, a file that cannot be read.  What an
    operating system adds to these (a name that is too long, a directory
    that cannot be searched or written, a full disk, a console that
    cannot encode a name) is left out: [exists_], [is_dir] and [print]
    always return, and [mkdir] only fails on a regular file.  The
    theorems below are stated so that this does not matter: they are
    about runs and calls that return, or about what one given failure
    does; the lemmas that classify the errors of the model
    ([plan_entry_raises] and the like) only serve to show that
    [IndexError] is not among them. *)

(** A regular file carries its bytes and whether the process may read
    it; a directory carries nothing (its entries are the paths below it). *)
Inductive node :=
| File (content : list Byte.byte) (readable : bool)
| Dir.

(** What [print] receives.  A line is kept as the format's arguments, not
    as rendered text. *)
Inductive line :=
| DryRunLine (copy_mode : bool) (src dst : path)
| OkLine (copy_mode : bool) (src dst : path)
| SkipLine (digest : string) (p : path)
| SummaryHeader
| SummaryLine (key : string) (value : nat).

Record state := State { files : gmap path node; out : list line }.

Inductive exn :=
| SystemExit (source : path)
| FileNotFoundError (p : path)
| FileExistsError (p : path)
| NotADirectoryError (p : path)
| IsADirectoryError (p : path)
| PermissionError (p : path)
| SameFileError (p : path)
| ShutilError (p : path)
| IndexError
| OutOfFuel.

(** [except Exception] catches everything but [SystemExit]; [OutOfFuel]
    is not a Python exception (it marks a loop cut short by the model and
    is shown below never to occur). *)
Definition is_Exception (e : exn) : bool :=
  match e with
  | SystemExit _ | OutOfFuel => false
  | _ => true
  end.

Inductive result (A : Type) :=
| Ok (a : A)
| Raise (e : exn).
Arguments Ok {A} a.
Arguments Raise {A} e.

Definition M (A : Type) : Type := state → state * result A.

Definition ret {A} (a : A) : M A := λ st, (st, Ok a).
Definition raise {A} (e : exn) : M A := λ st, (st, Raise e).
Definition bind {A B} (m : M A) (k : A → M B) : M B :=
  λ st, match m st with
        | (st', Ok a) => k a st'
        | (st', Raise e) => (st', Raise e)
        end.
Definition try_except {A} (m : M A) (handler : exn → M A) : M A :=
  λ st, match m st with
        | (st', Raise e) => if is_Exception e then handler e st' else (st', Raise e)
        | r => r
        end.

Notation "x <- m ;; k" := (bind m (λ x, k))
  (at level 100, m at next level, right associativity).

(** [print]: the line is appended to the console. *)
Definition print (l : line) : M unit :=
  λ st, (State (files st) (out st ++ [l]), Ok tt).

(** The root always exists and is a directory. *)
Definition node_at (fs : gmap path node) (p : path) : option node :=
  match p with
  | [] => Some Dir
  | _ => fs !! p
  end.

(** [path.exists()] and [path.is_dir()] *)
Definition exists_ (p : path) : M bool :=
  λ st, (st, Ok (match node_at (files st) p with Some _ => true | None => false end)).

Definition is_dir (p : path) : M bool :=
  λ st, (st, Ok (match node_at (files st) p with Some Dir => true | _ => false end)).

(** [path.mkdir(parents=True, exist_ok=True)], walking down from the
    root: [made] is the prefix already known to be a directory.  A
    regular file in the way raises [FileExistsError] when it is the
    directory asked for and [NotADirectoryError] when it is above it. *)
Fixpoint mkdir_from (made todo : path) (fs : gmap path node)
  : gmap path node * result unit :=
  match todo with
  | [] => (fs, Ok tt)
  | c :: todo' =>
      let p := made ++ [c] in
      match node_at fs p with
      | Some Dir => mkdir_from p todo' fs
      | Some (File _ _) =>
          (fs, Raise (match todo' with
                      | [] => FileExistsError p
                      | _ => NotADirectoryError p
                      end))
      | None => mkdir_from p todo' (<[p:=Dir]> fs)
      end
  end.

Definition mkdir_parents (p : path) : M unit :=
  λ st, let '(fs, r) := mkdir_from [] p (files st) in (State fs (out st), r).

(** [path.open("rb")] followed by reading to the end. *)
Definition read_bytes (p : path) : M (list Byte.byte) :=
  λ st, (st, match node_at (files st) p with
             | Some (File c true) => Ok c
             | Some (File _ false) => Raise (PermissionError p)
             | Some Dir => Raise (IsADirectoryError p)
             | None => Raise (FileNotFoundError p)
             end).

Definition parent (p : path) : path := removelast p.

(** Creating or replacing the regular file [p]; its directory must exist. *)
Definition write_file (p : path) (c : list Byte.byte) (r : bool) : M unit :=
  λ st, match node_at (files st) (parent p) with
        | Some Dir =>
            match node_at (files st) p with
            | Some Dir => (st, Raise (IsADirectoryError p))
            | _ => (State (<[p := File c r]> (files st)) (out st), Ok tt)
            end
        | Some (File _ _) => (st, Raise (NotADirectoryError p))
        | None => (st, Raise (FileNotFoundError p))
        end.

(** [shutil.copy2(src, dst)]: into [dst] when it is a directory, onto it
    otherwise; the bytes and the mode of [src] are kept. *)
Definition shutil_copy2 (src dst : path) : M unit :=
  d <- is_dir dst ;;
  let dst := if (d : bool) then dst ++ [PurePath.name src] else dst in
  if bool_decide (src = dst) then raise (SameFileError src) else
  c <- read_bytes src ;;
  write_file dst c true.

(** [os.rename] of a directory: every path below [src] moves below [dst]. *)
Definition rename_tree (src dst : path) (fs : gmap path node) : gmap path node :=
  list_to_map
    (List.map (λ '(p, n), (match PurePath.relative_to p src with
                          | Some r => dst ++ r
                          | None => p
                          end, n))
              (map_to_list fs)).

(** [shutil.move(src, dst)] within one file system: into [dst] when it
    is a directory (and the name is free there), onto it otherwise, by
    [os.rename], which needs no permission to read the file moved. *)
Definition shutil_move (src dst : path) : M unit :=
  d <- is_dir dst ;;
  e <- exists_ (dst ++ [PurePath.name src]) ;;
  if (d : bool) && (e : bool) then raise (ShutilError (dst ++ [PurePath.name src])) else
  let real_dst := if (d : bool) then dst ++ [PurePath.name src] else dst in
  λ st, match node_at (files st) src with
        | None => (st, Raise (FileNotFoundError src))
        | Some (File c r) =>
            match node_at (files st) (parent real_dst) with
            | Some Dir =>
                match node_at (files st) real_dst with
                | Some Dir => (st, Raise (IsADirectoryError real_dst))
                | _ => (State (<[real_dst := File c r]> (delete src (files st)))
                              (out st), Ok tt)
                end
            | Some (File _ _) => (st, Raise (NotADirectoryError real_dst))
            | None => (st, Raise (FileNotFoundError real_dst))
            end
        | Some Dir =>
            match node_at (files st) (parent real_dst), node_at (files st) real_dst with
            | Some Dir, None =>
                (State (rename_tree src real_dst (files st)) (out st), Ok tt)
            | Some Dir, Some _ => (st, Raise (FileExistsError real_dst))
            | Some (File _ _), _ => (st, Raise (NotADirectoryError real_dst))
            | None, _ => (st, Raise (FileNotFoundError real_dst))
            end
        end.

(** ** The organizer *)

Record run_counts := Counts { processed : nat; moved : nat; copied : nat; skipped : nat }.

Definition incr_processed (c : run_counts) : run_counts :=
  Counts (S (processed c)) (moved c) (copied c) (skipped c).
Definition incr_moved (c : run_counts) : run_counts :=
  Counts (processed c) (S (moved c)) (copied c) (skipped c).
Definition incr_copied (c : run_counts) : run_counts :=
  Counts (processed c) (moved c) (S (copied c)) (skipped c).
Definition incr_skipped (c : run_counts) : run_counts :=
  Counts (processed c) (moved c) (copied c) (S (skipped c)).

(** Where the body of the loop stands when it reaches line 150: it has
    either gone on to the next entry, or holds a destination to place
    the file at. *)
Inductive planned :=
| Continue (counts : run_counts) (seen_hashes : gset string)
| Place (final : path) (counts : run_counts) (seen_hashes : gset string).

Record args := Args {
  arg_source : path;
  arg_dest : path;
  arg_copy : bool;
  arg_dry_run : bool;
  arg_by_date : bool;
  arg_skip_duplicates : bool
}.

Section Organizer.

(** What the program takes from its environment: [str.lower] and
    [str.upper], [hashlib.sha1] followed by [hexdigest], the ISO form of
    [datetime.date.today()], and the entries [Path.rglob("*")] yields, in
    the order it yields them.  The walk is lazy, but the run is
    deterministic, so the entries it yields are a function of the file
    system the run starts from; nothing is assumed of that function,
    which leaves the scan order free. *)
Variables str_lower str_upper : string → string.
Variable sha1_hex : list Byte.byte → string.
Variable today : string.
Variable rglob : gmap path node → path → list path.

(** The digest of the whole content: the chunks fed to [h.update] are
    the content cut in pieces. *)
Definition file_sha1 (p : path) : M string :=
  c <- read_bytes p ;;
  ret (sha1_hex c).

Definition alt_name (stem suffix : string) (i : nat) : string :=
  stem +:+ " (" +:+ pretty i +:+ ")" +:+ suffix.

(** The [while True] loop of [safe_destination], from [i] on, for at
    most [fuel] turns. *)
Fixpoint probe (fs : gmap path node) (base : path) (stem suffix : string)
    (i fuel : nat) : option path :=
  match fuel with
  | O => None
  | S fuel' =>
      let alt := base ++ [alt_name stem suffix i] in
      match node_at fs alt with
      | None => Some alt
      | Some _ => probe fs base stem suffix (S i) fuel'
      end
  end.

Definition probe_loop (base : path) (stem suffix : string) : M path :=
  λ st, match probe (files st) base stem suffix 1 (S (size (files st))) with
        | Some alt => (st, Ok alt)
        | None => (st, Raise OutOfFuel)
        end.

(** [name] is one non-empty component ([path.name] of an entry of the
    walk), so [base / name] appends it. *)
Definition safe_destination (dest_root rel_dir : path) (name : string) : M path :=
  let base := dest_root ++ rel_dir in
  _ <- mkdir_parents base ;;
  let candidate := base ++ [name] in
  e <- exists_ candidate ;;
  if negb e then ret candidate else
  let stem := PurePath.stem candidate in
  let suffix := PurePath.suffix candidate in
  probe_loop base stem suffix.

(** The destination as the [OK] line shows it:
    [dst.relative_to(dst.parents[2]) if len(dst.parents) >= 2 else dst]. *)
Definition shown_destination (dst : path) : M path :=
  if (2 <=? length dst)%nat then
    if (3 <=? length dst)%nat then ret (drop (length dst - 3) dst)
    else raise IndexError
  else ret dst.

Definition move_or_copy (src dst : path) (copy_mode dry_run : bool) : M unit :=
  if dry_run then print (DryRunLine copy_mode src dst) else
  _ <- (if copy_mode then shutil_copy2 src dst else shutil_move src dst) ;;
  _ <- shown_destination dst ;;
  print (OkLine copy_mode src dst).

Definition plan_rel_dir (category : string) (use_date : bool) (ext : string) : path :=
  let parts := [category] in
  let parts := if use_date then parts ++ [today] else parts in
  let parts := parts ++ [if PyStr.truthy ext
                         then str_upper (PyStr.lstrip_dots ext)
                         else "MISC"] in
  PurePath.of_parts parts.

Section Loop.

Variables (dest : path) (copy_mode dry_run use_date skip_duplicates : bool).
Variable categories : gmap string string.

(** Lines 124-148 of the loop body. *)
Definition plan_entry (p : path) (counts : run_counts) (seen_hashes : gset string)
  : M planned :=
  d <- is_dir p ;;
  if (d : bool) then ret (Continue counts seen_hashes) else
  match PurePath.relative_to p dest with
  | Some _ => ret (Continue (incr_skipped counts) seen_hashes)
  | None =>
      let counts := incr_processed counts in
      let category := category_for str_lower p categories in
      let rel_dir := plan_rel_dir category use_date (str_lower (PurePath.suffix p)) in
      final <- safe_destination dest rel_dir (PurePath.name p) ;;
      if skip_duplicates then
        digest <- try_except (file_sha1 p) (λ _, ret "") ;;
        if PyStr.truthy digest && bool_decide (digest ∈ seen_hashes) then
          _ <- print (SkipLine digest p) ;;
          ret (Continue (incr_skipped counts) seen_hashes)
        else
          let seen_hashes :=
            if PyStr.truthy digest then {[digest]} ∪ seen_hashes else seen_hashes in
          ret (Place final counts seen_hashes)
      else ret (Place final counts seen_hashes)
  end.

(** Lines 150-155 of the loop body. *)
Definition place (p final : path) (counts : run_counts) : M run_counts :=
  _ <- move_or_copy p final copy_mode dry_run ;;
  ret (if dry_run then counts
       else if copy_mode then incr_copied counts else incr_moved counts).

Definition organize_entry (p : path) (acc : run_counts * gset string)
  : M (run_counts * gset string) :=
  pl <- plan_entry p acc.1 acc.2 ;;
  match pl with
  | Continue counts seen_hashes => ret (counts, seen_hashes)
  | Place final counts seen_hashes =>
      counts <- place p final counts ;;
      ret (counts, seen_hashes)
  end.

(** The [for] loop over the entries of the walk. *)
Fixpoint organize_loop (walk : list path) (acc : run_counts * gset string)
  : M (run_counts * gset string) :=
  match walk with
  | [] => ret acc
  | p :: walk' =>
      acc' <- organize_entry p acc ;;
      organize_loop walk' acc'
  end.

End Loop.

Definition organize (source dest : path)
    (copy_mode dry_run use_date skip_duplicates : bool)
    (categories : gmap string string) : M run_counts :=
  e <- exists_ source ;;
  d <- is_dir source ;;
  if negb e || negb d then raise (SystemExit source) else
  walk <- (λ st, (st, Ok (rglob (files st) source))) ;;
  acc <- organize_loop dest copy_mode dry_run use_date skip_duplicates categories
           walk (Counts 0 0 0 0, ∅) ;;
  ret acc.1.

(** [main], after [parse_args]. *)
Definition main (a : args) : M unit :=
  counts <- organize (arg_source a) (arg_dest a) (arg_copy a) (arg_dry_run a)
              (arg_by_date a) (arg_skip_duplicates a) DEFAULT_CATEGORIES ;;
  _ <- print SummaryHeader ;;
  _ <- print (SummaryLine "processed" (processed counts)) ;;
  _ <- print (SummaryLine "moved" (moved counts)) ;;
  _ <- print (SummaryLine "copied" (copied counts)) ;;
  print (SummaryLine "skipped" (skipped counts)).

End Organizer.

(** ** Scenarios the properties speak about *)

(** The names [safe_destination] tries for [name], in the order it tries
    them: the name itself, then the name with (1), (2), ... *)
Definition candidate_name (name : string) (k : nat) : string :=
  match k with
  | O => name
  | S _ => alt_name (PurePath.stem_of name) (PurePath.suffix_of name) k
  end.

(** [n] files sent one after the other to the same directory under the
    same name: each call of [safe_destination] is followed by the
    creation of the file it returned. *)
Fixpoint place_same_name (dest_root rel_dir : path) (name : string)
    (content : list Byte.byte) (n : nat) : M (list path) :=
  match n with
  | O => ret []
  | S n' =>
      final <- safe_destination dest_root rel_dir name ;;
      _ <- write_file final content true ;;
      others <- place_same_name dest_root rel_dir name content n' ;;
      ret (final :: others)
  end.

(** The digest [file_sha1] computes for the file at [p], empty when
    there is no regular file there. *)
Definition digest_of (sha1_hex : list Byte.byte → string)
    (fs : gmap path node) (p : path) : string :=
  match node_at fs p with
  | Some (File c _) => sha1_hex c
  | _ => ""
  end.

(** The line [move_or_copy] prints for a file it has placed. *)
Definition placement_line (dry_run copy_mode : bool) (src dst : path) : line :=
  if dry_run then DryRunLine copy_mode src dst else OkLine copy_mode src dst.

Definition is_skip_line (l : line) : bool :=
  match l with
  | SkipLine _ _ => true
  | _ => false
  end.

(** A computation that keeps every entry of the file system as it is,
    whether it returns or raises; it may add entries. *)
Definition keeps_entries {A} (m : M A) : Prop :=
  ∀ st st' r, m st = (st', r) → files st ⊆ files st'.


(** The errors of the file system ([OSError] and its subclasses). *)
Definition is_os_error (e : exn) : bool :=
  match e with
  | FileNotFoundError _ | FileExistsError _ | NotADirectoryError _
  | IsADirectoryError _ | PermissionError _ | SameFileError _ | ShutilError _ => true
  | SystemExit _ | IndexError | OutOfFuel => false
  end.


(** What [path.is_dir()] answers in the file system [fs]. *)
Definition is_directory (fs : gmap path node) (p : path) : bool :=
  match node_at fs p with
  | Some Dir => true
  | _ => false
  end.







(** ** Concrete environments and file systems used in the examples *)

(** A stand-in for SHA-1 on small inputs: injective and never empty. *)
Definition demo_digest (c : list Byte.byte) : string :=
  "h" +:+ String.string_of_list_byte c.

Definition demo_today : string := "2025-10-26".

(** A walk that yields the given entries in the given order. *)
Definition walk_of (entries : list path) : gmap path node → path → list path :=
  λ _ _, entries.

Definition bytes_A : list Byte.byte := [Byte.x41].
Definition bytes_B : list Byte.byte := [Byte.x42].

(** A source directory with a picture and a text file. *)
Definition fs_two : gmap path node :=
  list_to_map [ (["s"], Dir);
                (["s"; "a.jpg"], File bytes_A true);
                (["s"; "b.txt"], File bytes_B true) ].

(** The destination root lies inside the source and already holds a file. *)
Definition fs_overlap : gmap path node :=
  list_to_map [ (["s"], Dir);
                (["s"; "out"], Dir);
                (["s"; "out"; "x.txt"], File bytes_A true) ].

(** The first file of the source cannot be read. *)
Definition fs_unreadable : gmap path node :=
  list_to_map [ (["s"], Dir);
                (["s"; "a.txt"], File bytes_A false);
                (["s"; "b.txt"], File bytes_B true) ].

(** Three files with the same bytes. *)
Definition fs_triple : gmap path node :=
  list_to_map [ (["s"], Dir);
                (["s"; "x.png"], File bytes_A true);
                (["s"; "y.png"], File bytes_A true);
                (["s"; "z.png"], File bytes_A true) ].

(** A destination directory that holds [a.jpg]. *)
Definition fs_taken : gmap path node :=
  list_to_map [ (["d"], Dir);
                (["d"; "Images"], Dir);
                (["d"; "Images"; "JPG"], Dir);
                (["d"; "Images"; "JPG"; "a.jpg"], File bytes_A true) ].




(** A regular file stands where the folder [Images] is needed. *)
Definition fs_blocked : gmap path node :=
  list_to_map [ (["d"], Dir);
                (["d"; "Images"], File bytes_B true) ].

(** A destination directory that holds [a.jpg] and [a (2).jpg]. *)
Definition fs_gap : gmap path node :=
  <[ ["d"; "Images"; "JPG"; "a (2).jpg"] := File bytes_B true ]> fs_taken.

(** The runs of [organize] the examples evaluate, from source [/s] to
    destination [/d] unless said otherwise, with the default table.  The
    names in the examples are ASCII, so [PyStr.lower] and [PyStr.upper]
    stand for [str.lower] and [str.upper]. *)
Definition run_demo (walk : list path) (fs : gmap path node) (dest : path)
    (copy_mode dry_run skip_duplicates : bool) : state * result run_counts :=
  organize PyStr.lower PyStr.upper demo_digest demo_today (walk_of walk) ["s"] dest
    copy_mode dry_run false skip_duplicates DEFAULT_CATEGORIES (State fs []).

Definition walk_two : list path := [["s"; "a.jpg"]; ["s"; "b.txt"]].
Definition walk_overlap : list path := [["s"; "out"]; ["s"; "out"; "x.txt"]].
Definition walk_unreadable : list path := [["s"; "a.txt"]; ["s"; "b.txt"]].
Definition walk_unreadable_last : list path := [["s"; "b.txt"]; ["s"; "a.txt"]].
Definition walk_triple : list path :=
  [["s"; "x.png"]; ["s"; "y.png"]; ["s"; "z.png"]].

(** * Properties *)

(** ** Strings and paths *)

Lemma is_dot_lower_ascii c : PyStr.is_dot (PyStr.lower_ascii c) = PyStr.is_dot c.
Proof. by destruct c as [[] [] [] [] [] [] [] []]. Qed.

Lemma length_lower s : String.length (PyStr.lower s) = String.length s.
Proof. induction s as [|c s IH]; simpl; congruence. Qed.

Lemma rfind_dot_lower s : PyStr.rfind_dot (PyStr.lower s) = PyStr.rfind_dot s.
Proof.
  induction s as [|c s IH]; simpl; [done|].
  by rewrite IH, is_dot_lower_ascii.
Qed.

Lemma drop_lower i s : PyStr.drop i (PyStr.lower s) = PyStr.lower (PyStr.drop i s).
Proof.
  revert s; induction i as [|i IH]; intros [|c s]; simpl; auto.
Qed.

Lemma split_point_lower nm :
  PurePath.split_point (PyStr.lower nm) = PurePath.split_point nm.
Proof.
  unfold PurePath.split_point. by rewrite rfind_dot_lower, length_lower.
Qed.

(** Lowering the ASCII letters of a name and taking the suffix commute. *)
Lemma suffix_of_lower nm :
  PurePath.suffix_of (PyStr.lower nm) = PyStr.lower (PurePath.suffix_of nm).
Proof.
  unfold PurePath.suffix_of. rewrite split_point_lower.
  destruct (PurePath.split_point nm); [apply drop_lower | done].
Qed.

Lemma append_cons c s t : String c s +:+ t = String c (s +:+ t).
Proof. reflexivity. Qed.

Lemma lower_app s t : PyStr.lower (s +:+ t) = PyStr.lower s +:+ PyStr.lower t.
Proof.
  induction s as [|c s IH]; [done|].
  rewrite append_cons. simpl. by rewrite append_cons, IH.
Qed.

Lemma name_snoc (dir : path) (nm : string) : PurePath.name (dir ++ [nm]) = nm.
Proof. unfold PurePath.name. apply last_last. Qed.

(** ** The run *)

Section OrganizerProperties.

Variables str_lower str_upper : string → string.
Variable sha1_hex : list Byte.byte → string.
Variable today : string.
Variable rglob : gmap path node → path → list path.

Lemma bind_Ok {A B} (m : M A) (k : A → M B) st st' a :
  m st = (st', Ok a) → bind m k st = k a st'.
Proof. intros H. unfold bind. by rewrite H. Qed.

Lemma bind_Raise {A B} (m : M A) (k : A → M B) st st' e :
  m st = (st', Raise e) → bind m k st = (st', Raise e).
Proof. intros H. unfold bind. by rewrite H. Qed.

Lemma bind_inv_Ok {A B} (m : M A) (k : A → M B) st st2 b :
  bind m k st = (st2, Ok b) →
  ∃ st1 a, m st = (st1, Ok a) ∧ k a st1 = (st2, Ok b).
Proof.
  unfold bind. destruct (m st) as [st1 [a|e]]; [eauto | discriminate].
Qed.

(** Read off a computation that has come down to a [ret]. *)
Ltac ret_inv H :=
  cbv beta iota in H; unfold ret in H; cbv beta iota in H.

Lemma is_dir_eq p st :
  is_dir p st = (st, Ok (match node_at (files st) p with Some Dir => true | _ => false
      end)).
Proof. reflexivity. Qed.

Lemma exists_eq p st :
  exists_ p st = (st, Ok (match node_at (files st) p with Some _ => true | None => false
      end)).
Proof. reflexivity. Qed.

Lemma organize_bad_source_raises
    (source dest : path) (copy_mode dry_run use_date skip_duplicates : bool)
    (categories : gmap string string) (st : state) :
  node_at (files st) source ≠ Some Dir →
  organize str_lower str_upper sha1_hex today rglob source dest copy_mode dry_run use_date
    skip_duplicates categories st
  = (st, Raise (SystemExit source)).
Proof.
  intros Hsrc. unfold organize.
  rewrite (bind_Ok _ _ _ _ _ (exists_eq source st)).
  rewrite (bind_Ok _ _ _ _ _ (is_dir_eq source st)).
  destruct (node_at (files st) source) as [[|]|]; try done.
Qed.

(** C6: when the source is missing or is not a directory, [organize]
    raises [SystemExit] at once: the file system and the console are as
    they were (no file touched, no line and no summary printed) and no
    counters are returned, by [organize] and so by [main]. *)
Theorem organize_rejects_bad_source
    (source dest : path) (copy_mode dry_run use_date skip_duplicates : bool)
    (categories : gmap string string) (st : state) :
  node_at (files st) source ≠ Some Dir →
  organize str_lower str_upper sha1_hex today rglob source dest copy_mode dry_run use_date
    skip_duplicates categories st
    = (st, Raise (SystemExit source)) ∧
  main str_lower str_upper sha1_hex today rglob
    (Args source dest copy_mode dry_run use_date skip_duplicates) st
    = (st, Raise (SystemExit source)).
Proof.
  intros Hsrc. split; [by apply organize_bad_source_raises|].
  unfold main; simpl. apply bind_Raise. by apply organize_bad_source_raises.
Qed.

(** C7, amended: an entry of the walk that is not a directory and lies
    inside the destination root adds one to [skipped] and nothing else:
    [processed] and the other counters, the seen digests, the file system
    and the console are unchanged, and the loop goes on with the entries
    that follow. *)
Theorem inside_dest_is_only_skipped
    (dest : path) (copy_mode dry_run use_date skip_duplicates : bool)
    (categories : gmap string string)
    (p : path) (rest : list path) (c : run_counts) (seen : gset string) (st : state) :
  node_at (files st) p ≠ Some Dir →
  is_Some (PurePath.relative_to p dest) →
  organize_entry str_lower str_upper sha1_hex today dest copy_mode dry_run use_date
      skip_duplicates
      categories p (c, seen) st
    = (st, Ok (Counts (processed c) (moved c) (copied c) (S (skipped c)), seen)) ∧
  organize_loop str_lower str_upper sha1_hex today dest copy_mode dry_run use_date
      skip_duplicates categories
      (p :: rest) (c, seen) st
    = organize_loop str_lower str_upper sha1_hex today dest copy_mode dry_run use_date
        skip_duplicates
        categories
        rest (Counts (processed c) (moved c) (copied c) (S (skipped c)), seen) st.
Proof.
  intros Hnd [r Hr].
  assert (He : organize_entry str_lower str_upper sha1_hex today dest copy_mode dry_run
      use_date skip_duplicates
                 categories p (c, seen) st
               = (st, Ok (Counts (processed c) (moved c) (copied c) (S (skipped c)),
                   seen))).
  { unfold organize_entry, plan_entry; simpl.
    unfold bind at 1. unfold bind at 1. rewrite is_dir_eq.
    destruct (node_at (files st) p) as [[|]|]; try done; by rewrite Hr. }
  split; [done|]. simpl. by rewrite (bind_Ok _ _ _ _ _ He).
Qed.

(** *** Counters *)

Lemma plan_entry_counts
    (dest : path) (use_date skip_duplicates : bool) (categories : gmap string string)
    (p : path) (c : run_counts) (seen : gset string) (st st' : state) (pl : planned) :
  plan_entry str_lower str_upper sha1_hex today dest use_date skip_duplicates categories p
      c seen st = (st',
      Ok pl) →
  pl = Continue c seen ∨
  (is_Some (PurePath.relative_to p dest) ∧ pl = Continue (incr_skipped c) seen) ∨
  (PurePath.relative_to p dest = None ∧
   (pl = Continue (incr_skipped (incr_processed c)) seen ∨
    ∃ final seen', pl = Place final (incr_processed c) seen')).
Proof.
  unfold plan_entry. intros H.
  apply bind_inv_Ok in H as (st1 & d & Hd & H).
  destruct d; [left; ret_inv H; congruence|].
  destruct (PurePath.relative_to p dest) as [r|] eqn:Hr.
  { right; left. ret_inv H. split; [eauto | congruence]. }
  right; right. split; [done|].
  apply bind_inv_Ok in H as (st2 & final & Hf & H).
  destruct skip_duplicates.
  - apply bind_inv_Ok in H as (st3 & digest & Hdg & H).
    destruct (PyStr.truthy digest && bool_decide (digest ∈ seen)).
    + apply bind_inv_Ok in H as (st4 & [] & _ & H). ret_inv H.
      left; congruence.
    + ret_inv H. right. simplify_eq. eauto.
  - ret_inv H. right. simplify_eq. eauto.
Qed.

Lemma place_counts (copy_mode dry_run : bool) (p final : path) (c c' : run_counts)
    (st st' : state) :
  place copy_mode dry_run p final c st = (st', Ok c') →
  c' = if dry_run then c else if copy_mode then incr_copied c else incr_moved c.
Proof.
  unfold place. intros H. apply bind_inv_Ok in H as (st1 & [] & _ & H).
  ret_inv H. congruence.
Qed.

Lemma organize_entry_counts
    (dest : path) (copy_mode use_date skip_duplicates : bool)
    (categories : gmap string string)
    (p : path) (acc acc' : run_counts * gset string) (st st' : state) :
  organize_entry str_lower str_upper sha1_hex today dest copy_mode false use_date
      skip_duplicates categories
      p acc st
    = (st', Ok acc') →
  processed acc'.1 + (moved acc.1 + copied acc.1 + skipped acc.1)
    ≤ processed acc.1 + (moved acc'.1 + copied acc'.1 + skipped acc'.1) ∧
  (PurePath.relative_to p dest = None →
   processed acc'.1 + (moved acc.1 + copied acc.1 + skipped acc.1)
     = processed acc.1 + (moved acc'.1 + copied acc'.1 + skipped acc'.1)).
Proof.
  unfold organize_entry. intros H.
  apply bind_inv_Ok in H as (st1 & pl & Hpl & H).
  apply plan_entry_counts in Hpl as [->|[[[r Hr] ->]|[Hr [->|(final & seen' & ->)]]]].
  - ret_inv H. injection H as _ <-. simpl. lia.
  - ret_inv H. injection H as _ <-. simpl. rewrite Hr. split; [lia | done].
  - ret_inv H. injection H as _ <-. simpl. lia.
  - apply bind_inv_Ok in H as (st2 & c2 & Hp & H).
    apply place_counts in Hp as ->.
    ret_inv H. injection H as _ <-. destruct copy_mode; simpl; lia.
Qed.

Lemma organize_loop_counts
    (dest : path) (copy_mode use_date skip_duplicates : bool)
    (categories : gmap string string)
    (walk : list path) (acc acc' : run_counts * gset string) (st st' : state) :
  organize_loop str_lower str_upper sha1_hex today dest copy_mode false use_date
      skip_duplicates categories
      walk acc st
    = (st', Ok acc') →
  processed acc'.1 + (moved acc.1 + copied acc.1 + skipped acc.1)
    ≤ processed acc.1 + (moved acc'.1 + copied acc'.1 + skipped acc'.1) ∧
  (Forall (λ p, PurePath.relative_to p dest = None) walk →
   processed acc'.1 + (moved acc.1 + copied acc.1 + skipped acc.1)
     = processed acc.1 + (moved acc'.1 + copied acc'.1 + skipped acc'.1)).
Proof.
  revert acc st. induction walk as [|p walk IH]; intros acc st H; simpl in H.
  - ret_inv H. injection H as _ <-. split; [lia | intros; lia].
  - apply bind_inv_Ok in H as (st1 & acc1 & He & H).
    apply organize_entry_counts in He as [Hle Heq].
    apply IH in H as [Hle' Heq']. split; [lia|].
    intros Hall. inversion Hall as [|? ? Hp Hw]; subst.
    specialize (Heq Hp). specialize (Heq' Hw). lia.
Qed.

(** C1, amended: after a run of [organize] that is not a dry run and
    returns its counters, [processed <= moved + copied + skipped], and
    the two sides are equal when no entry of the walk lies inside the
    destination root (such an entry adds to [skipped] and not to
    [processed]). *)
Theorem counters_balance
    (source dest : path) (copy_mode use_date skip_duplicates : bool)
    (categories : gmap string string) (st st' : state) (c : run_counts) :
  organize str_lower str_upper sha1_hex today rglob source dest copy_mode false use_date
      skip_duplicates
      categories st
    = (st', Ok c) →
  processed c ≤ moved c + copied c + skipped c ∧
  (Forall (λ p, PurePath.relative_to p dest = None) (rglob (files st) source) →
   processed c = moved c + copied c + skipped c).
Proof.
  unfold organize. intros H.
  apply bind_inv_Ok in H as (st1 & e & He & H).
  apply bind_inv_Ok in H as (st2 & d & Hd & H).
  destruct (negb e || negb d); [discriminate|].
  apply bind_inv_Ok in H as (st3 & walk & Hw & H).
  apply bind_inv_Ok in H as (st4 & acc & Hl & H).
  ret_inv H. injection H as _ <-.
  rewrite exists_eq in He. rewrite is_dir_eq in Hd.
  injection He as <- _. injection Hd as <- _. injection Hw as <- <-.
  apply organize_loop_counts in Hl as [Hle Heq]. simpl in *.
  split; [lia|]. intros Hall. specialize (Heq Hall). lia.
Qed.

(** *** Failures *)

Lemma organize_loop_app
    (dest : path) (copy_mode dry_run use_date skip_duplicates : bool)
    (categories : gmap string string)
    (pre rest : list path) (acc acc1 : run_counts * gset string) (st st1 : state) :
  organize_loop str_lower str_upper sha1_hex today dest copy_mode dry_run use_date
      skip_duplicates
      categories pre acc st
    = (st1, Ok acc1) →
  organize_loop str_lower str_upper sha1_hex today dest copy_mode dry_run use_date
      skip_duplicates categories
    (pre ++ rest) acc st
  = organize_loop str_lower str_upper sha1_hex today dest copy_mode dry_run use_date
      skip_duplicates categories
      rest acc1 st1.
Proof.
  revert acc st. induction pre as [|q pre IH]; intros acc st H; simpl in *.
  - ret_inv H. by simplify_eq.
  - apply bind_inv_Ok in H as (st0 & acc0 & He & H).
    rewrite (bind_Ok _ _ _ _ _ He). by apply IH.
Qed.

Lemma organize_runs_loop
    (source dest : path) (copy_mode dry_run use_date skip_duplicates : bool)
    (categories : gmap string string) (st : state) :
  node_at (files st) source = Some Dir →
  organize str_lower str_upper sha1_hex today rglob source dest copy_mode dry_run use_date
      skip_duplicates
      categories st
  = bind (organize_loop str_lower str_upper sha1_hex today dest copy_mode dry_run use_date
      skip_duplicates
      categories
            (rglob (files st) source) (Counts 0 0 0 0, ∅))
         (λ acc, ret acc.1) st.
Proof.
  intros Hsrc. unfold organize.
  rewrite (bind_Ok _ _ _ _ _ (exists_eq source st)).
  rewrite (bind_Ok _ _ _ _ _ (is_dir_eq source st)).
  rewrite Hsrc. simpl. reflexivity.
Qed.

Lemma file_sha1_raises_Exception (p : path) (st st' : state) (e : exn) :
  file_sha1 sha1_hex p st = (st', Raise e) → st' = st ∧ is_Exception e = true.
Proof.
  unfold file_sha1, bind, read_bytes, ret.
  destruct (node_at (files st) p) as [[c []|]|]; intros H; by simplify_eq.
Qed.

(** C8, amended: with duplicate-skipping on, when the digest of a file
    cannot be computed the failure is absorbed: the file is not counted
    as a duplicate ([skipped] and the seen digests are unchanged) and is
    handed to the placement like a file with a new digest; when that
    placement succeeds the loop goes on with the remaining entries. *)
Theorem digest_failure_treated_as_unique
    (dest : path) (copy_mode dry_run use_date : bool)
    (categories : gmap string string)
    (p : path) (rest : list path) (c : run_counts) (seen : gset string)
    (st st1 : state) (final : path) (e : exn) :
  node_at (files st) p ≠ Some Dir →
  PurePath.relative_to p dest = None →
  safe_destination dest
    (plan_rel_dir str_upper today (category_for str_lower p categories) use_date
       (str_lower (PurePath.suffix p)))
    (PurePath.name p) st = (st1, Ok final) →
  file_sha1 sha1_hex p st1 = (st1, Raise e) →
  plan_entry str_lower str_upper sha1_hex today dest use_date true categories p c seen st
    = (st1, Ok (Place final (incr_processed c) seen)) ∧
  ∀ st2, move_or_copy p final copy_mode dry_run st1 = (st2, Ok tt) →
    organize_loop str_lower str_upper sha1_hex today dest copy_mode dry_run use_date true
        categories (p ::
        rest) (c, seen) st
    = organize_loop str_lower str_upper sha1_hex today dest copy_mode dry_run use_date
        true categories rest
        (if dry_run then incr_processed c
         else if copy_mode then incr_copied (incr_processed c)
              else incr_moved (incr_processed c), seen) st2.
Proof.
  intros Hnd Hout Hsafe Hsha.
  assert (Hplan : plan_entry str_lower str_upper sha1_hex today dest use_date true
      categories p c seen st
                  = (st1, Ok (Place final (incr_processed c) seen))).
  { unfold plan_entry.
    rewrite (bind_Ok _ _ _ _ _ (is_dir_eq p st)).
    destruct (node_at (files st) p) as [[|]|]; try done;
      rewrite Hout, (bind_Ok _ _ _ _ _ Hsafe);
      destruct (file_sha1_raises_Exception _ _ _ _ Hsha) as [_ Hex];
      unfold bind at 1, try_except; rewrite Hsha, Hex; reflexivity. }
  split; [done|]. intros st2 Hmove. simpl.
  unfold organize_entry at 1. unfold bind at 1. unfold bind at 1.
  simpl. rewrite Hplan. unfold bind at 1, place. unfold bind at 1.
  rewrite Hmove. reflexivity.
Qed.

(** *** The file system under [mkdir] *)

Lemma node_at_snoc (fs : gmap path node) (d : path) (c : string) :
  node_at fs (d ++ [c]) = fs !! (d ++ [c]).
Proof. unfold node_at. by destruct d. Qed.

Lemma node_at_lookup (fs : gmap path node) (p : path) (n : node) :
  fs !! p = Some n → p ≠ [] → node_at fs p = Some n.
Proof. by destruct p. Qed.

(** [mkdir] keeps every entry and adds only directories, on the way from
    the root to the directory asked for. *)
Lemma mkdir_from_spec (made todo : path) (fs fs' : gmap path node) (r : result unit) :
  mkdir_from made todo fs = (fs', r) →
  fs ⊆ fs' ∧
  ∀ q n, fs' !! q = Some n →
         fs !! q = Some n ∨ (n = Dir ∧ fs !! q = None ∧ q `prefix_of` made ++ todo).
Proof.
  revert made fs. induction todo as [|c todo IH]; intros made fs H; simpl in H.
  - simplify_eq. split; [done | auto].
  - rewrite node_at_snoc in H.
    destruct (fs !! (made ++ [c])) as [[cnt rd|]|] eqn:Hp.
    + simplify_eq. split; [done | auto].
    + apply IH in H as [Hsub Hnew]. split; [done|].
      intros q n Hq. destruct (Hnew q n Hq) as [?|(? & ? & Hpre)]; [auto|].
      right. by rewrite <- app_assoc in Hpre.
    + apply IH in H as [Hsub Hnew]. split.
      { etrans; [|exact Hsub]. by apply insert_subseteq. }
      intros q n Hq. destruct (Hnew q n Hq) as [Hq'|(-> & Hq' & Hpre)].
      * destruct (decide (q = made ++ [c])) as [->|Hne].
        -- rewrite lookup_insert_eq in Hq'. simplify_eq. right.
           split_and!; [done | done |]. rewrite (cons_middle c made todo), app_assoc.
           by apply prefix_app_r.
        -- rewrite lookup_insert_ne in Hq' by done. auto.
      * right. rewrite <- app_assoc in Hpre. split_and!; [done | | done].
        destruct (decide (q = made ++ [c])) as [->|Hne].
        -- by rewrite lookup_insert_eq in Hq'.
        -- by rewrite lookup_insert_ne in Hq'.
Qed.

Lemma mkdir_from_ok (made todo : path) (fs fs' : gmap path node) :
  mkdir_from made todo fs = (fs', Ok tt) →
  node_at fs made = Some Dir →
  node_at fs' (made ++ todo) = Some Dir.
Proof.
  revert made fs. induction todo as [|c todo IH]; intros made fs H Hd; simpl in H.
  - simplify_eq. by rewrite app_nil_r.
  - rewrite (cons_middle c made todo), app_assoc.
    destruct (node_at fs (made ++ [c])) as [[cnt rd|]|] eqn:Hp; [done | |].
    + by apply (IH _ _ H).
    + apply (IH _ _ H). rewrite node_at_snoc. apply lookup_insert_eq.
Qed.

Lemma mkdir_from_raise (made todo : path) (fs fs' : gmap path node) (e : exn) :
  mkdir_from made todo fs = (fs', Raise e) →
  ∃ q, e = FileExistsError q ∨ e = NotADirectoryError q.
Proof.
  revert made fs. induction todo as [|c todo IH]; intros made fs H; simpl in H.
  - discriminate.
  - destruct (node_at fs (made ++ [c])) as [[cnt rd|]|]; [|eauto|eauto].
    destruct todo; simplify_eq; eauto.
Qed.

(** *** Collision-free names *)

Lemma length_append (s t : string) :
  String.length (s +:+ t) = String.length s + String.length t.
Proof. induction s as [|c s IH]; [done|]. rewrite append_cons. simpl. by rewrite IH. Qed.

Lemma append_inj_r (x y t : string) : x +:+ t = y +:+ t → x = y.
Proof.
  revert y. induction x as [|c x IH]; intros [|c' y] H.
  - done.
  - apply (f_equal String.length) in H. rewrite !length_append in H. simpl in H. lia.
  - apply (f_equal String.length) in H. rewrite !length_append in H. simpl in H. lia.
  - rewrite !append_cons in H. injection H as -> H. f_equal. by apply IH.
Qed.

Lemma alt_name_inj (stem suffix : string) (i j : nat) :
  alt_name stem suffix i = alt_name stem suffix j → i = j.
Proof.
  unfold alt_name. intros H.
  apply (inj (String.app stem)) in H. apply (inj (String.app " (")) in H.
  apply append_inj_r in H. by apply (inj pretty) in H.
Qed.

Lemma take_drop_string (i : nat) (s : string) : PyStr.take i s +:+ PyStr.drop i s = s.
Proof.
  revert s. induction i as [|i IH]; intros [|c s]; simpl; try done.
  by rewrite append_cons, IH.
Qed.

Lemma stem_suffix_of (nm : string) : PurePath.stem_of nm +:+ PurePath.suffix_of nm = nm.
Proof.
  unfold PurePath.stem_of, PurePath.suffix_of.
  destruct (PurePath.split_point nm) as [i|]; [apply take_drop_string|].
  induction nm as [|c nm IH]; [done|]. by rewrite append_cons, IH.
Qed.

Lemma candidate_name_inj (name : string) (i j : nat) :
  candidate_name name i = candidate_name name j → i = j.
Proof.
  assert (Hlen : ∀ k, String.length (candidate_name name (S k)) ≠ String.length name).
  { intros k. simpl. unfold alt_name. rewrite <- (stem_suffix_of name) at 3.
    rewrite !length_append. simpl. lia. }
  destruct i as [|i], j as [|j]; intros H; [done | | |].
  - exfalso. apply (Hlen j). by rewrite <- H.
  - exfalso. apply (Hlen i). by rewrite H.
  - by apply alt_name_inj in H.
Qed.

Lemma probe_Some (fs : gmap path node) (base : path) (stem suffix : string)
    (i fuel : nat) (alt : path) :
  probe fs base stem suffix i fuel = Some alt →
  ∃ k, i ≤ k ∧ alt = base ++ [alt_name stem suffix k] ∧ fs !! alt = None ∧
       ∀ j, i ≤ j < k → is_Some (fs !! (base ++ [alt_name stem suffix j])).
Proof.
  revert i. induction fuel as [|fuel IH]; intros i H; simpl in H; [done|].
  rewrite node_at_snoc in H.
  destruct (fs !! (base ++ [alt_name stem suffix i])) as [n|] eqn:Hi.
  - apply IH in H as (k & Hk & -> & Hfree & Hbusy). exists k.
    split_and!; [lia | done | done |]. intros j Hj.
    destruct (decide (j = i)) as [->|]; [eauto | apply Hbusy; lia].
  - simplify_eq. exists i. split_and!; [lia | done | done | intros; lia].
Qed.

Lemma probe_None (fs : gmap path node) (base : path) (stem suffix : string)
    (i fuel : nat) :
  probe fs base stem suffix i fuel = None →
  ∀ j, i ≤ j < i + fuel → is_Some (fs !! (base ++ [alt_name stem suffix j])).
Proof.
  revert i. induction fuel as [|fuel IH]; intros i H j Hj; simpl in H; [lia|].
  rewrite node_at_snoc in H.
  destruct (fs !! (base ++ [alt_name stem suffix i])) as [n|] eqn:Hi; [|done].
  destruct (decide (j = i)) as [->|]; [eauto|]. apply (IH (S i)); [done | lia].
Qed.

(** The loop of [safe_destination] ends: a finite directory cannot hold
    all of [(1)], ..., [(size + 1)]. *)
Lemma probe_enough_fuel (fs : gmap path node) (base : path) (stem suffix : string) :
  probe fs base stem suffix 1 (S (size fs)) ≠ None.
Proof.
  intros Hnone. pose proof (probe_None _ _ _ _ _ _ Hnone) as Hbusy.
  set (f := λ j : nat, base ++ [alt_name stem suffix j]).
  assert (Hinj : Inj (=) (=) f).
  { intros a b Hab. unfold f in Hab. apply app_inv_head in Hab.
    injection Hab as Hab. by apply alt_name_inj in Hab. }
  assert (Hnd : NoDup (f <$> seq 1 (S (size fs)))).
  { apply NoDup_fmap_2; [done | apply NoDup_seq]. }
  assert (Hsub : (list_to_set (f <$> seq 1 (S (size fs))) : gset path) ⊆ dom fs).
  { intros q Hq. apply elem_of_list_to_set, list_elem_of_fmap in Hq as (j & -> & Hj).
    apply elem_of_seq in Hj. apply elem_of_dom, Hbusy. lia. }
  apply subseteq_size in Hsub.
  rewrite size_list_to_set, length_fmap, length_seq, size_dom in Hsub by done. lia.
Qed.

Lemma safe_destination_inv (dest_root rel_dir : path) (name : string)
    (st st' : state) (res : result path) :
  safe_destination dest_root rel_dir name st = (st', res) →
  ∃ mk, mkdir_from [] (dest_root ++ rel_dir) (files st) = (files st', mk) ∧
        out st' = out st ∧
        match mk with
        | Raise e => res = Raise e
        | Ok _ =>
            ∃ k, res = Ok ((dest_root ++ rel_dir) ++ [candidate_name name k]) ∧
                 files st' !! ((dest_root ++ rel_dir) ++ [candidate_name name k]) = None ∧
                 ∀ j, j < k →
                   is_Some (files st' !! ((dest_root ++ rel_dir) ++ [candidate_name name
                       j]))
        end.
Proof.
  unfold safe_destination, bind at 1, mkdir_parents.
  destruct (mkdir_from [] (dest_root ++ rel_dir) (files st)) as [fs' [[]|e]] eqn:Hmk;
    intros H; [|simplify_eq; exists (Raise e); auto].
  exists (Ok tt). unfold bind at 1 in H. rewrite exists_eq in H.
  cbv beta iota zeta in H. unfold probe_loop, PurePath.stem, PurePath.suffix in H.
  cbn [files] in H. rewrite node_at_snoc, name_snoc in H.
  destruct (fs' !! ((dest_root ++ rel_dir) ++ [name])) as [n|] eqn:Hc;
    cbn [negb] in H; cbv beta iota in H; cbn [files] in H.
  - destruct (probe fs' _ _ _ 1 (S (size fs'))) as [alt|] eqn:Hprobe;
      [|by apply probe_enough_fuel in Hprobe].
    apply probe_Some in Hprobe as (k & Hk & -> & Hfree & Hbusy). simplify_eq. simpl.
    split_and!; [done | done |]. exists k. destruct k as [|k]; [lia|].
    split_and!; [done | done |]. intros [|j] Hj; [by eauto|]. apply Hbusy. lia.
  - ret_inv H. simplify_eq. simpl. split_and!; [done | done |].
    exists 0. split_and!; [done | done | intros; lia].
Qed.

Lemma mkdir_from_again (made todo : path) (fs fs' : gmap path node) :
  mkdir_from made todo fs = (fs', Ok tt) →
  mkdir_from made todo fs' = (fs', Ok tt).
Proof.
  revert made fs. induction todo as [|c todo IH]; intros made fs H; simpl in *; [done|].
  rewrite node_at_snoc in *.
  destruct (fs !! (made ++ [c])) as [[cnt rd|]|] eqn:Hp; [done | |].
  - destruct (mkdir_from_spec _ _ _ _ _ H) as [Hsub _].
    rewrite (lookup_weaken _ _ _ _ Hp Hsub). eauto.
  - destruct (mkdir_from_spec _ _ _ _ _ H) as [Hsub _].
    rewrite (lookup_weaken _ fs' (made ++ [c]) Dir (lookup_insert_eq _ _ _) Hsub). eauto.
Qed.

Lemma mkdir_from_present (made todo : path) (fs fs2 : gmap path node) :
  mkdir_from made todo fs = (fs, Ok tt) → fs ⊆ fs2 →
  mkdir_from made todo fs2 = (fs2, Ok tt).
Proof.
  revert made. induction todo as [|c todo IH]; intros made H Hsub; simpl in *; [done|].
  rewrite node_at_snoc in *.
  destruct (fs !! (made ++ [c])) as [[cnt rd|]|] eqn:Hp; [done | |].
  - rewrite (lookup_weaken _ _ _ _ Hp Hsub). eauto.
  - destruct (mkdir_from_spec _ _ _ _ _ H) as [Hsub' _].
    pose proof (lookup_weaken _ fs (made ++ [c]) Dir (lookup_insert_eq _ _ _) Hsub').
    congruence.
Qed.

(** [mkdir] does not create what [safe_destination] probes for. *)
Lemma mkdir_from_keeps_free (base : path) (nm : string) (fs fs' : gmap path node)
    (r : result unit) :
  mkdir_from [] base fs = (fs', r) →
  fs !! (base ++ [nm]) = None → fs' !! (base ++ [nm]) = None.
Proof.
  intros H Hfree. destruct (mkdir_from_spec _ _ _ _ _ H) as [_ Hnew].
  destruct (fs' !! (base ++ [nm])) as [n|] eqn:Hq; [|done].
  destruct (Hnew _ _ Hq) as [?|(_ & _ & Hpre)]; [congruence|].
  simpl in Hpre. by apply prefix_snoc_not in Hpre.
Qed.

Lemma safe_destination_fresh (dest_root rel_dir : path) (name : string)
    (st st' : state) (final : path) :
  safe_destination dest_root rel_dir name st = (st', Ok final) →
  node_at (files st) final = None ∧ node_at (files st') final = None.
Proof.
  intros H. apply safe_destination_inv in H as ([[]|e] & Hmk & _ & H); [|done].
  destruct H as (k & Hk & Hfree & _). simplify_eq.
  rewrite !node_at_snoc. split; [|done].
  destruct (mkdir_from_spec _ _ _ _ _ Hmk) as [Hsub _].
  by eapply lookup_weaken_None.
Qed.

Lemma safe_destination_terminates (dest_root rel_dir : path) (name : string)
    (st st' : state) (e : exn) :
  safe_destination dest_root rel_dir name st = (st', Raise e) → e ≠ OutOfFuel.
Proof.
  intros H. apply safe_destination_inv in H as ([[]|e'] & Hmk & _ & H).
  - by destruct H as (k & ? & _).
  - simplify_eq. apply mkdir_from_raise in Hmk as (q & [->| ->]); done.
Qed.

Section SameName.

Variables (dest_root rel_dir : path) (name : string) (content : list Byte.byte).

Let cand (k : nat) : path := (dest_root ++ rel_dir) ++ [candidate_name name k].

Lemma cand_inj (i j : nat) : cand i = cand j → i = j.
Proof.
  unfold cand. intros H. apply app_inv_head in H. injection H as H.
  by apply candidate_name_inj in H.
Qed.

(** One call followed by the creation of the file: the candidate taken is
    the first free one, every lower one is taken, and the directory is
    there for the next call. *)
Lemma place_one (st : state) (lo : nat) :
  (mkdir_from [] (dest_root ++ rel_dir) (files st)).2 = Ok tt →
  (∀ j, j < lo → is_Some (files st !! cand j)) →
  ∃ k st1 st2,
    safe_destination dest_root rel_dir name st = (st1, Ok (cand k)) ∧
    write_file (cand k) content true st1 = (st2, Ok tt) ∧
    lo ≤ k ∧ files st !! cand k = None ∧
    (∀ j, j < k → is_Some (files st1 !! cand j)) ∧
    (∀ j, j < S k → is_Some (files st2 !! cand j)) ∧
    (∀ j, k < j → files st !! cand j = None → files st2 !! cand j = None) ∧
    mkdir_from [] (dest_root ++ rel_dir) (files st2) = (files st2, Ok tt).
Proof.
  intros Hmk Hlo.
  destruct (safe_destination dest_root rel_dir name st) as [st1 res] eqn:Hsafe.
  pose proof Hsafe as Hsafe'.
  apply safe_destination_inv in Hsafe as (mk & Hmk1 & Hout & H).
  rewrite Hmk1 in Hmk. simpl in Hmk. subst mk.
  destruct H as (k & -> & Hfree & Hbusy).
  destruct (mkdir_from_spec _ _ _ _ _ Hmk1) as [Hsub _].
  assert (Hdir : node_at (files st1) (dest_root ++ rel_dir) = Some Dir).
  { by apply (mkdir_from_ok [] _ _ _ Hmk1). }
  exists k, st1, (State (<[cand k := File content true]> (files st1)) (out st1)).
  assert (Hins : files st1 ⊆ <[cand k := File content true]> (files st1)).
  { by apply insert_subseteq. }
  split_and!.
  - done.
  - unfold write_file, parent. unfold cand at 1 2. rewrite removelast_last, Hdir.
    unfold cand at 1. rewrite node_at_snoc. fold (cand k). unfold cand at 1.
    by rewrite Hfree.
  - destruct (decide (lo ≤ k)) as [|Hn]; [done|].
    destruct (Hlo k ltac:(lia)) as [n Hn'].
    pose proof (lookup_weaken _ _ _ _ Hn' Hsub). unfold cand in *. congruence.
  - by eapply lookup_weaken_None.
  - done.
  - intros j Hj. simpl. destruct (decide (j = k)) as [->|].
    + rewrite lookup_insert_eq. eauto.
    + destruct (Hbusy j ltac:(lia)) as [x Hx]. exists x.
      by apply (lookup_weaken _ _ _ _ Hx Hins).
  - intros j Hj Hfreej. simpl. rewrite lookup_insert_ne.
    + by apply (mkdir_from_keeps_free _ _ _ _ _ Hmk1).
    + intros Heq. apply cand_inj in Heq. lia.
  - simpl. apply (mkdir_from_present _ _ (files st1)); [|done].
    by apply (mkdir_from_again _ _ (files st)).
Qed.

Lemma place_same_name_sorted (n : nat) (st : state) (lo : nat) :
  (mkdir_from [] (dest_root ++ rel_dir) (files st)).2 = Ok tt →
  (∀ j, j < lo → is_Some (files st !! cand j)) →
  ∃ ks st',
    place_same_name dest_root rel_dir name content n st = (st', Ok (cand <$> ks)) ∧
    length ks = n ∧ Forall (λ k, lo ≤ k) ks ∧ StronglySorted lt ks ∧
    ((∀ j, lo ≤ j → files st !! cand j = None) → ks = seq lo n).
Proof.
  revert st lo. induction n as [|n IH]; intros st lo Hmk Hlo.
  - exists [], st. split_and!; try done; constructor.
  - destruct (place_one st lo Hmk Hlo)
      as (k & st1 & st2 & Hsafe & Hwrite & Hk & Hfree & _ & Hbusy & Hkeep & Hmk2).
    destruct (IH st2 (S k)) as (ks & st' & Hrun & Hlen & Hge & Hsort & Hseq).
    { by rewrite Hmk2. } { done. }
    exists (k :: ks), st'. split_and!.
    + simpl. rewrite (bind_Ok _ _ _ _ _ Hsafe), (bind_Ok _ _ _ _ _ Hwrite).
      by rewrite (bind_Ok _ _ _ _ _ Hrun).
    + simpl. by rewrite Hlen.
    + constructor; [done|]. eapply Forall_impl; [exact Hge|]. simpl. lia.
    + constructor; [done|]. eapply Forall_impl; [exact Hge|]. simpl. lia.
    + intros Hall. assert (k = lo) as ->.
      { destruct (decide (k = lo)) as [|Hne]; [done|].
        destruct (place_one st lo Hmk Hlo) as (k' & st1' & ? & Hsafe' & _).
        rewrite Hsafe in Hsafe'. injection Hsafe' as _ Hkk. apply cand_inj in Hkk.
        subst k'. apply safe_destination_inv in Hsafe as (mk & Hmk1 & _ & H).
        rewrite Hmk1 in Hmk. simpl in Hmk. subst mk.
        destruct H as (k2 & Hk2 & _ & Hbusy2). injection Hk2 as Hk2.
        apply app_inv_head in Hk2. injection Hk2 as Hk2.
        apply candidate_name_inj in Hk2. subst k2.
        destruct (Hbusy2 lo ltac:(lia)) as [nd Hx].
        pose proof (mkdir_from_keeps_free _ (candidate_name name lo) _ _ _ Hmk1
                      (Hall lo ltac:(lia))) as Hlo'. unfold cand in Hx.
        by rewrite Hlo' in Hx. }
      simpl. f_equal. apply Hseq. intros j Hj. apply Hkeep; [lia|]. apply Hall. lia.
Qed.

End SameName.


(** C4, amended: [safe_destination] never returns a path that exists
    when it is called (nor after the directory has been made), and its
    loop always ends.  For [n] calls in a row for one directory and one
    name, each followed by the creation of the file returned, the [n]
    paths are pairwise distinct and are the candidates [name],
    [name (1)], [name (2)], ... taken at strictly increasing indices; the
    indices are consecutive, from the plain name when it is free and from
    [(1)] when it is taken, provided no numbered candidate is in the
    directory beforehand (one that is there is stepped over). *)
Theorem safe_destination_fresh_and_ordered (dest_root rel_dir : path) (name : string) :
  (∀ st st' final,
     safe_destination dest_root rel_dir name st = (st', Ok final) →
     node_at (files st) final = None ∧ node_at (files st') final = None) ∧
  (∀ st st' e,
     safe_destination dest_root rel_dir name st = (st', Raise e) → e ≠ OutOfFuel) ∧
  (∀ content n st,
     (mkdir_parents (dest_root ++ rel_dir) st).2 = Ok tt →
     ∃ ks st',
       place_same_name dest_root rel_dir name content n st
         = (st', Ok ((λ k, (dest_root ++ rel_dir) ++ [candidate_name name k]) <$> ks)) ∧
       length ks = n ∧
       NoDup ((λ k, (dest_root ++ rel_dir) ++ [candidate_name name k]) <$> ks) ∧
       StronglySorted lt ks ∧
       ((∀ j, 1 ≤ j →
              files st !! ((dest_root ++ rel_dir) ++ [candidate_name name j]) = None) →
        ks = seq (match files st !! ((dest_root ++ rel_dir) ++ [name]) with
                  | Some _ => 1
                  | None => 0
                  end) n)).
Proof.
  split_and!.
  - intros st st' final. apply safe_destination_fresh.
  - intros st st' e. apply safe_destination_terminates.
  - intros content n st Hmk.
    assert (Hmk' : (mkdir_from [] (dest_root ++ rel_dir) (files st)).2 = Ok tt).
    { unfold mkdir_parents in Hmk.
      by destruct (mkdir_from [] (dest_root ++ rel_dir) (files st)). }
    set (lo := match files st !! ((dest_root ++ rel_dir) ++ [name]) with
               | Some _ => 1 | None => 0 end).
    destruct (place_same_name_sorted dest_root rel_dir name content n st lo Hmk')
      as (ks & st' & Hrun & Hlen & _ & Hsort & Hseq).
    { intros j Hj. subst lo.
      destruct (files st !! ((dest_root ++ rel_dir) ++ [name])) as [x|] eqn:Hx; [|lia].
      assert (j = 0) as -> by lia. simpl. rewrite Hx. eauto. }
    exists ks, st'. split_and!; [done | done | | done |].
    + apply NoDup_fmap_2.
      * intros a b Hab. by apply (cand_inj dest_root rel_dir name) in Hab.
      * clear -Hsort. induction Hsort as [|k ks Hs IH Hall]; constructor; [|done].
        intros Hin. rewrite Forall_forall in Hall. specialize (Hall _ Hin). lia.
    + intros Hfree. apply Hseq. intros j Hj. subst lo.
      destruct (files st !! ((dest_root ++ rel_dir) ++ [name])) as [x|] eqn:Hx.
      * by apply Hfree.
      * destruct j as [|j]; [done | apply Hfree; lia].
Qed.


(** *** Placing one file *)

Lemma relative_to_app (d x : path) : PurePath.relative_to (d ++ x) d = Some x.
Proof. induction d as [|c d IH]; simpl; [done|]. by rewrite String.eqb_refl. Qed.

Lemma node_at_File (fs : gmap path node) (p : path) (c : list Byte.byte) (r : bool) :
  node_at fs p = Some (File c r) → fs !! p = Some (File c r) ∧ p ≠ [].
Proof. by destruct p. Qed.

Lemma node_at_None (fs : gmap path node) (p : path) :
  node_at fs p = None → fs !! p = None ∧ p ≠ [].
Proof. by destruct p. Qed.

Lemma shutil_copy2_Ok (src dst : path) (st st' : state) :
  shutil_copy2 src dst st = (st', Ok tt) →
  node_at (files st) dst = None →
  ∃ c, node_at (files st) src = Some (File c true) ∧
       st' = State (<[dst := File c true]> (files st)) (out st).
Proof.
  unfold shutil_copy2, bind at 1. rewrite is_dir_eq. intros H Hdst.
  rewrite Hdst in H. cbv beta iota in H.
  destruct (bool_decide (src = dst)); [done|].
  apply bind_inv_Ok in H as (st1 & c & Hread & Hwrite).
  unfold read_bytes in Hread. unfold write_file in Hwrite.
  destruct (node_at (files st) src) as [[c' []|]|]; simplify_eq.
  exists c. split; [done|]. rewrite Hdst in Hwrite.
  by destruct (node_at (files st1) (parent dst)) as [[]|]; simplify_eq.
Qed.

Lemma shutil_move_Ok (src dst : path) (st st' : state) (c : list Byte.byte) (r : bool) :
  shutil_move src dst st = (st', Ok tt) →
  node_at (files st) dst = None →
  node_at (files st) src = Some (File c r) →
  st' = State (<[dst := File c r]> (delete src (files st))) (out st).
Proof.
  unfold shutil_move, bind at 1. rewrite is_dir_eq. intros H Hdst Hsrc.
  rewrite Hdst in H. cbv beta iota in H. unfold bind at 1 in H.
  rewrite exists_eq in H. cbv beta iota in H. simpl in H.
  rewrite Hsrc, Hdst in H.
  by destruct (node_at (files st) (parent dst)) as [[]|]; simplify_eq.
Qed.

(** What a successful [move_or_copy] of a regular file to a free path
    leaves behind. *)
Lemma move_or_copy_Ok (src dst : path) (copy_mode dry_run : bool) (st st' : state)
    (c : list Byte.byte) :
  move_or_copy src dst copy_mode dry_run st = (st', Ok tt) →
  node_at (files st) src = Some (File c true) →
  node_at (files st) dst = None →
  out st' = out st ++ [placement_line dry_run copy_mode src dst] ∧
  (∀ q n, q ≠ src → files st !! q = Some n → files st' !! q = Some n) ∧
  (if dry_run then files st' = files st
   else files st' !! dst = Some (File c true)).
Proof.
  unfold move_or_copy, placement_line. intros H Hsrc Hdst.
  destruct (node_at_None _ _ Hdst) as [Hdst' _].
  destruct dry_run.
  { unfold print in H. by simplify_eq. }
  apply bind_inv_Ok in H as (st1 & [] & Hact & H).
  apply bind_inv_Ok in H as (st2 & shown & Hshown & H).
  assert (st2 = st1) as ->.
  { unfold shown_destination in Hshown.
    by repeat case_match; unfold ret, raise in Hshown; simplify_eq. }
  unfold print in H. simplify_eq. simpl.
  assert (Hfiles : files st1 = <[dst := File c true]> (files st) ∧ out st1 = out st
                   ∨ files st1 = <[dst := File c true]> (delete src (files st))
                     ∧ out st1 = out st).
  { destruct copy_mode.
    - apply shutil_copy2_Ok in Hact as (c' & Hc' & ->); [|done].
      left. rewrite Hsrc in Hc'. by simplify_eq.
    - apply (shutil_move_Ok _ _ _ _ c true) in Hact as ->; [|done..]. by right. }
  destruct Hfiles as [[-> ->]|[-> ->]]; split_and!; try done.
  - intros q n Hq Hn. rewrite lookup_insert_ne; [done | congruence].
  - apply lookup_insert_eq.
  - intros q n Hq Hn. rewrite lookup_insert_ne by congruence.
    by rewrite lookup_delete_ne.
  - apply lookup_insert_eq.
Qed.

Lemma safe_destination_Ok (dest_root rel_dir : path) (name : string)
    (st st' : state) (final : path) :
  safe_destination dest_root rel_dir name st = (st', Ok final) →
  files st ⊆ files st' ∧ out st' = out st ∧
  node_at (files st') final = None ∧ is_Some (PurePath.relative_to final dest_root).
Proof.
  intros H. pose proof (safe_destination_fresh _ _ _ _ _ _ H) as [_ Hfree].
  apply safe_destination_inv in H as ([[]|e] & Hmk & Hout & H); [|done].
  destruct H as (k & Hk & _). simplify_eq.
  destruct (mkdir_from_spec _ _ _ _ _ Hmk) as [Hsub _].
  split_and!; [done | done | done |].
  rewrite <- app_assoc, relative_to_app. eauto.
Qed.


(** *** Duplicates *)

Section Dedupe.

(** A hexadecimal digest is never the empty string. *)
Hypothesis sha1_hex_nonempty : ∀ b, sha1_hex b ≠ "".

Variables (dest : path) (copy_mode dry_run use_date : bool).
Variable categories : gmap string string.

Lemma file_sha1_Ok (p : path) (c : list Byte.byte) (st : state) :
  node_at (files st) p = Some (File c true) →
  file_sha1 sha1_hex p st = (st, Ok (sha1_hex c)).
Proof. intros H. unfold file_sha1, bind, read_bytes, ret. by rewrite H. Qed.

Lemma truthy_digest (c : list Byte.byte) : PyStr.truthy (sha1_hex c) = true.
Proof.
  pose proof (sha1_hex_nonempty c). by destruct (sha1_hex c).
Qed.

(** One turn of the loop on a readable regular file outside the
    destination root, with duplicate-skipping on. *)
Lemma organize_entry_dedupe (p : path) (c : list Byte.byte)
    (cnt cnt' : run_counts) (seen seen' : gset string) (st st' : state) :
  node_at (files st) p = Some (File c true) →
  PurePath.relative_to p dest = None →
  organize_entry str_lower str_upper sha1_hex today dest copy_mode dry_run use_date true
      categories p (cnt,
      seen) st
    = (st', Ok (cnt', seen')) →
  (∀ q n, q ≠ p → files st !! q = Some n → files st' !! q = Some n) ∧
  seen' = {[sha1_hex c]} ∪ seen ∧
  ∃ l, out st' = out st ++ [l] ∧
       skipped cnt' = skipped cnt + (if is_skip_line l then 1 else 0) ∧
       if bool_decide (sha1_hex c ∈ seen) then l = SkipLine (sha1_hex c) p
       else ∃ dst, l = placement_line dry_run copy_mode p dst ∧
                   is_Some (PurePath.relative_to dst dest) ∧
                   files st !! dst = None ∧
                   (dry_run = false → files st' !! dst = Some (File c true)).
Proof.
  intros Hp Hout H. unfold organize_entry in H.
  apply bind_inv_Ok in H as (st2 & pl & Hplan & H).
  unfold plan_entry in Hplan.
  rewrite (bind_Ok _ _ _ _ _ (is_dir_eq p st)), Hp, Hout in Hplan.
  apply bind_inv_Ok in Hplan as (st1 & final & Hsafe & Hplan).
  apply safe_destination_Ok in Hsafe as (Hsub & Hout1 & Hfree & Hin).
  destruct (node_at_File _ _ _ _ Hp) as [Hp' Hpne].
  assert (Hp1 : node_at (files st1) p = Some (File c true)).
  { apply node_at_lookup; [|done]. by apply (lookup_weaken _ _ _ _ Hp' Hsub). }
  unfold bind at 1, try_except in Hplan.
  rewrite (file_sha1_Ok _ _ _ Hp1), truthy_digest in Hplan. simpl in Hplan.
  destruct (bool_decide (sha1_hex c ∈ seen)) eqn:Hseen.
  - apply bool_decide_eq_true in Hseen.
    unfold bind, print, ret in Hplan. simplify_eq. ret_inv H. simplify_eq. simpl.
    split_and!.
    + intros q n _ Hq. by apply (lookup_weaken _ _ _ _ Hq Hsub).
    + symmetry. apply subseteq_union_1_L. by apply singleton_subseteq_l.
    + eexists. split; [by rewrite Hout1|]. simpl. split; [lia | done].
  - ret_inv Hplan. simplify_eq.
    apply bind_inv_Ok in H as (st3 & c3 & Hplace & H). ret_inv H. simplify_eq.
    unfold place in Hplace. apply bind_inv_Ok in Hplace as (st4 & [] & Hmove & Hc3).
    ret_inv Hc3. simplify_eq.
    apply (move_or_copy_Ok _ _ _ _ _ _ c) in Hmove as (Hlines & Hframe & Hplaced);
      [|done..].
    split_and!.
    + intros q n Hq Hn. apply Hframe; [done|]. by apply (lookup_weaken _ _ _ _ Hn Hsub).
    + done.
    + eexists. split; [by rewrite Hlines, Hout1|]. split.
      * unfold placement_line. destruct dry_run, copy_mode; simpl; lia.
      * exists final. split_and!; [done | done | |].
        -- destruct (node_at_None _ _ Hfree) as [Hfree' _].
           by eapply lookup_weaken_None.
        -- intros ->. done.
Qed.


Lemma outside_not_inside (p dst : path) :
  PurePath.relative_to p dest = None →
  is_Some (PurePath.relative_to dst dest) → dst ≠ p.
Proof. intros Hp [r Hr] ->. congruence. Qed.

(** The whole loop on a walk of distinct readable regular files outside
    the destination root: one line per entry, in the order of the walk;
    the line of an entry is a [SkipLine] exactly when its digest was seen
    before it. *)
Lemma organize_loop_dedupe (walk : list path) :
  ∀ (cnt cnt' : run_counts) (seen seen' : gset string) (st st' : state),
  NoDup walk →
  (∀ p, p ∈ walk →
        (∃ c, node_at (files st) p = Some (File c true)) ∧
        PurePath.relative_to p dest = None) →
  organize_loop str_lower str_upper sha1_hex today dest copy_mode dry_run use_date true
      categories walk
      (cnt, seen) st
    = (st', Ok (cnt', seen')) →
  ∃ lines,
    out st' = out st ++ lines ∧ length lines = length walk ∧
    (∀ q n, q ∉ walk → files st !! q = Some n → files st' !! q = Some n) ∧
    skipped cnt' = skipped cnt + length (filter is_skip_line lines) ∧
    ∀ i p, walk !! i = Some p →
      let d := digest_of sha1_hex (files st) p in
      let before : gset string :=
        seen ∪ list_to_set (digest_of sha1_hex (files st) <$> take i walk) in
      (d ∈ before → lines !! i = Some (SkipLine d p)) ∧
      (d ∉ before →
       ∃ dst, lines !! i = Some (placement_line dry_run copy_mode p dst) ∧
              is_Some (PurePath.relative_to dst dest) ∧
              files st !! dst = None ∧
              (dry_run = false →
               ∃ c, node_at (files st) p = Some (File c true) ∧
                    files st' !! dst = Some (File c true))).
Proof.
  induction walk as [|p walk IH]; intros cnt cnt' seen seen' st st' Hnd Hfiles Hrun.
  { simpl in Hrun. ret_inv Hrun. simplify_eq. exists [].
    rewrite app_nil_r. split_and!; done. }
  simpl in Hrun. apply bind_inv_Ok in Hrun as (st1 & [cnt1 seen1] & Hstep & Hrun).
  apply NoDup_cons in Hnd as [Hp Hnd].
  destruct (Hfiles p ltac:(left)) as [[c Hc] Hpout].
  destruct (organize_entry_dedupe _ _ _ _ _ _ _ _ Hc Hpout Hstep)
    as (Hframe1 & -> & l & Hout1 & Hskip1 & Hl).
  assert (Hsame : ∀ q, q ∈ walk → node_at (files st1) q = node_at (files st) q).
  { intros q Hq. destruct (Hfiles q ltac:(by right)) as [[cq Hcq] _].
    destruct (node_at_File _ _ _ _ Hcq) as [Hcq' Hqne]. rewrite Hcq.
    apply node_at_lookup; [|done]. apply Hframe1; [|done]. intros ->. done. }
  assert (Hdig : ∀ q, q ∈ walk →
            digest_of sha1_hex (files st1) q = digest_of sha1_hex (files st) q).
  { intros q Hq. unfold digest_of. by rewrite (Hsame q Hq). }
  destruct (IH cnt1 cnt' ({[sha1_hex c]} ∪ seen) seen' st1 st' Hnd)
    as (lines & Hout & Hlen & Hframe & Hskip & Hidx).
  { intros q Hq. rewrite (Hsame q Hq). apply Hfiles. by right. }
  { done. }
  exists (l :: lines). split_and!.
  - by rewrite Hout, Hout1, <- app_assoc.
  - simpl. by rewrite Hlen.
  - intros q n Hq Hn. apply not_elem_of_cons in Hq as [Hqp Hq]. eauto.
  - rewrite Hskip, Hskip1, filter_cons.
    destruct (is_skip_line l); case_decide; simpl in *; try done; lia.
  - intros [|i] q Hi; simpl in Hi.
    + simplify_eq. simpl.
      assert (Hd : digest_of sha1_hex (files st) q = sha1_hex c).
      { unfold digest_of. by rewrite Hc. }
      rewrite Hd. split.
      * intros Hin. rewrite bool_decide_eq_true_2 in Hl by set_solver. by subst l.
      * intros Hnin. rewrite bool_decide_eq_false_2 in Hl by set_solver.
        destruct Hl as (dst & -> & Hdst & Hfree & Hplaced).
        exists dst. split_and!; [done..|]. intros Hdry. exists c. split; [done|].
        apply Hframe; [|by apply Hplaced].
        intros Hin. destruct (Hfiles dst ltac:(by right)) as [_ Hout'].
        by apply (outside_not_inside _ _ Hout' Hdst).
    + assert (Hq : q ∈ walk) by (by eapply list_elem_of_lookup_2).
      destruct (Hidx i q Hi) as [Hs Hpl]. simpl in Hs, Hpl.
      assert (Hbefore :
        ({[sha1_hex c]} ∪ seen)
          ∪ list_to_set (digest_of sha1_hex (files st1) <$> take i walk)
        = seen ∪ (list_to_set (digest_of sha1_hex (files st) <$> take (S i) (p :: walk))
                   : gset string)).
      { assert (Hdp : digest_of sha1_hex (files st) p = sha1_hex c).
        { unfold digest_of. by rewrite Hc. }
        assert (Hmap : digest_of sha1_hex (files st1) <$> take i walk
                       = digest_of sha1_hex (files st) <$> take i walk).
        { apply list_fmap_ext. intros k x Hk. apply Hdig.
          apply list_elem_of_lookup_2 in Hk. by apply (subseteq_take i walk). }
        rewrite Hmap. simpl. rewrite Hdp. clear. set_solver. }
      rewrite Hbefore, (Hdig q Hq) in Hs, Hpl. simpl. split; [done|].
      intros Hnin. destruct (Hpl Hnin) as (dst & Hline & Hdst & Hfree & Hplaced).
      exists dst. split_and!; [done | done | |].
      * destruct (files st !! dst) as [n|] eqn:Hn; [|done].
        rewrite (Hframe1 dst n) in Hfree; [done | | done].
        by apply (outside_not_inside _ _ Hpout Hdst).
      * intros Hdry. destruct (Hplaced Hdry) as (cq & Hcq & Hthere).
        exists cq. by rewrite <- (Hsame q Hq).
Qed.


Lemma organize_Ok_runs_loop (source : path) (st st' : state) (cnt : run_counts) :
  organize str_lower str_upper sha1_hex today rglob source dest copy_mode dry_run use_date
      true categories
      st = (st', Ok cnt) →
  ∃ seen', organize_loop str_lower str_upper sha1_hex today dest copy_mode dry_run
      use_date true categories
             (rglob (files st) source) (Counts 0 0 0 0, ∅) st = (st', Ok (cnt, seen')).
Proof.
  intros H.
  assert (node_at (files st) source = Some Dir ∨ node_at (files st) source ≠ Some Dir)
    as [Hsrc|Hsrc] by (destruct (node_at (files st) source) as [[]|]; auto).
  - rewrite organize_runs_loop in H by done.
    apply bind_inv_Ok in H as (st1 & [cnt1 seen1] & Hloop & H). ret_inv H.
    simplify_eq. eauto.
  - rewrite organize_bad_source_raises in H by done. discriminate.
Qed.

End Dedupe.


(** *** Dry runs *)

Lemma try_file_sha1_state (p : path) (st st' : state) (r : result string) :
  try_except (file_sha1 sha1_hex p) (λ _, ret "") st = (st', r) → st' = st.
Proof.
  unfold try_except. destruct (file_sha1 sha1_hex p st) as [st1 [d|e]] eqn:Hsha.
  - unfold file_sha1, bind, read_bytes, ret in Hsha.
    destruct (node_at (files st) p) as [[c []|]|]; intros; by simplify_eq.
  - apply file_sha1_raises_Exception in Hsha as [-> ->]. unfold ret. congruence.
Qed.

Lemma plan_entry_frame
    (dest : path) (use_date skip_duplicates : bool) (categories : gmap string string)
    (p : path) (c : run_counts) (seen : gset string) (st st' : state) (pl : planned) :
  plan_entry str_lower str_upper sha1_hex today dest use_date skip_duplicates categories p
      c seen st = (st',
      Ok pl) →
  files st ⊆ files st' ∧
  ∀ q n, files st' !! q = Some n → files st !! q = Some n ∨ n = Dir.
Proof.
  unfold plan_entry. intros H.
  apply bind_inv_Ok in H as (st0 & d & Hd & H). rewrite is_dir_eq in Hd.
  injection Hd as <- _.
  destruct d; [ret_inv H; simplify_eq; eauto|].
  destruct (PurePath.relative_to p dest); [ret_inv H; simplify_eq; eauto|].
  apply bind_inv_Ok in H as (st1 & final & Hsafe & H).
  assert (Hst1 : files st ⊆ files st1 ∧
                 ∀ q n, files st1 !! q = Some n → files st !! q = Some n ∨ n = Dir).
  { apply safe_destination_inv in Hsafe as (mk & Hmk & _ & _).
    apply mkdir_from_spec in Hmk as [Hsub Hnew]. split; [done|].
    intros q n Hq. destruct (Hnew q n Hq) as [?|(? & _)]; auto. }
  assert (files st' = files st1) as ->; [|done].
  destruct skip_duplicates; [|ret_inv H; by simplify_eq].
  apply bind_inv_Ok in H as (st2 & digest & Hdg & H).
  apply try_file_sha1_state in Hdg as ->.
  destruct (PyStr.truthy digest && bool_decide (digest ∈ seen)).
  - unfold bind, print, ret in H. by simplify_eq.
  - ret_inv H. by simplify_eq.
Qed.

(** A dry run that returns leaves every entry of the file system as it
    was; what it adds are directories. *)
Lemma dry_run_only_adds_directories
    (dest : path) (copy_mode use_date skip_duplicates : bool)
    (categories : gmap string string)
    (walk : list path) (acc acc' : run_counts * gset string) (st st' : state) :
  organize_loop str_lower str_upper sha1_hex today dest copy_mode true use_date
      skip_duplicates categories
      walk acc st
    = (st', Ok acc') →
  files st ⊆ files st' ∧
  ∀ q n, files st' !! q = Some n → files st !! q = Some n ∨ n = Dir.
Proof.
  revert acc st. induction walk as [|p walk IH]; intros acc st H; simpl in H.
  { ret_inv H. simplify_eq. eauto. }
  apply bind_inv_Ok in H as (st1 & acc1 & He & H).
  apply IH in H as [Hsub' Hnew'].
  assert (Hstep : files st ⊆ files st1 ∧
                  ∀ q n, files st1 !! q = Some n → files st !! q = Some n ∨ n = Dir).
  { unfold organize_entry in He.
    apply bind_inv_Ok in He as (st2 & pl & Hplan & He).
    apply plan_entry_frame in Hplan.
    assert (files st1 = files st2) as ->; [|done].
    destruct pl; [ret_inv He; by simplify_eq|].
    apply bind_inv_Ok in He as (st3 & c3 & Hplace & He). ret_inv He.
    unfold place, move_or_copy, bind, print, ret in Hplace. by simplify_eq. }
  destruct Hstep as [Hsub Hnew]. split; [by etrans|].
  intros q n Hq. destruct (Hnew' q n Hq) as [Hq1| ->]; [|by right]. eauto.
Qed.


(** *** More on names and extensions *)

Lemma append_assoc (a b c : string) : (a +:+ b) +:+ c = a +:+ (b +:+ c).
Proof. induction a as [|x a IH]; [done|]. by rewrite !append_cons, IH. Qed.

Lemma is_dot_eq (c : ascii) : PyStr.is_dot c = true → c = "."%char.
Proof. unfold PyStr.is_dot. by intros H%Ascii.eqb_eq. Qed.

Lemma is_dot_upper_ascii c : PyStr.is_dot (PyStr.upper_ascii c) = PyStr.is_dot c.
Proof. by destruct c as [[] [] [] [] [] [] [] []]. Qed.

Lemma upper_lower_ascii c : PyStr.upper_ascii (PyStr.lower_ascii c) = PyStr.upper_ascii c.
Proof. by destruct c as [[] [] [] [] [] [] [] []]. Qed.

Lemma upper_lower s : PyStr.upper (PyStr.lower s) = PyStr.upper s.
Proof. induction s as [|c s IH]; simpl; [done|]. by rewrite IH, upper_lower_ascii. Qed.

Lemma rfind_dot_upper s : PyStr.rfind_dot (PyStr.upper s) = PyStr.rfind_dot s.
Proof.
  induction s as [|c s IH]; simpl; [done|].
  by rewrite IH, is_dot_upper_ascii.
Qed.

(** Where [rfind] finds the last dot, a dot stands, and none follows. *)
Lemma rfind_dot_Some (s : string) (i : nat) :
  PyStr.rfind_dot s = Some i →
  ∃ t, PyStr.drop i s = String "." t ∧ PyStr.rfind_dot t = None ∧
       String.length s = i + S (String.length t).
Proof.
  revert i. induction s as [|c s IH]; intros i H; simpl in H; [done|].
  destruct (PyStr.rfind_dot s) as [j|] eqn:Hj.
  - simplify_eq. destruct (IH j eq_refl) as (t & Ht & Hnone & Hlen).
    exists t. simpl. split_and!; [done | done | lia].
  - destruct (PyStr.is_dot c) eqn:Hc; [|done]. simplify_eq.
    apply is_dot_eq in Hc as ->. exists s. simpl. split_and!; [done | done | lia].
Qed.

Lemma rfind_dot_app (x t : string) :
  PyStr.rfind_dot t = None →
  PyStr.rfind_dot (x +:+ String "." t) = Some (String.length x).
Proof.
  intros Ht. induction x as [|c x IH].
  - change ("" +:+ String "." t) with (String "." t). simpl. by rewrite Ht.
  - rewrite append_cons. simpl. by rewrite IH.
Qed.

Lemma drop_length_app (x s : string) : PyStr.drop (String.length x) (x +:+ s) = s.
Proof.
  induction x as [|c x IH]; [by destruct s|]. rewrite append_cons. simpl. exact IH.
Qed.

Lemma take_length_app (x s : string) : PyStr.take (String.length x) (x +:+ s) = x.
Proof.
  induction x as [|c x IH]; [by destruct s|]. rewrite append_cons. simpl. by rewrite IH.
Qed.

(** A suffix, when there is one, is a dot followed by at least one
    character and no further dot. *)
Lemma suffix_of_shape (nm : string) :
  PurePath.suffix_of nm = "" ∨
  ∃ t, PurePath.suffix_of nm = String "." t ∧ t ≠ "" ∧ PyStr.rfind_dot t = None.
Proof.
  unfold PurePath.suffix_of, PurePath.split_point.
  destruct (PyStr.rfind_dot nm) as [i|] eqn:Hi; [|by left].
  destruct ((0 <? i) && (i <? String.length nm - 1)) eqn:Hb; [|by left].
  right. apply andb_true_iff in Hb as [_ Hlt]. apply Nat.ltb_lt in Hlt.
  destruct (rfind_dot_Some _ _ Hi) as (t & Ht & Hnone & Hlen).
  exists t. split_and!; [done | | done]. intros ->. simpl in Hlen. lia.
Qed.

Lemma suffix_of_app_dot (x t : string) :
  x ≠ "" → t ≠ "" → PyStr.rfind_dot t = None →
  PurePath.suffix_of (x +:+ String "." t) = String "." t ∧
  PurePath.stem_of (x +:+ String "." t) = x.
Proof.
  intros Hx Ht Hnone.
  unfold PurePath.suffix_of, PurePath.stem_of, PurePath.split_point.
  rewrite (rfind_dot_app x t Hnone), length_append. simpl.
  assert (0 < String.length x) by (destruct x; [done | simpl; lia]).
  assert (0 < String.length t) by (destruct t; [done | simpl; lia]).
  replace ((0 <? String.length x)
           && (String.length x <? String.length x + S (String.length t) - 1)) with true.
  - by rewrite drop_length_app, take_length_app.
  - symmetry. apply andb_true_iff. split; apply Nat.ltb_lt; lia.
Qed.

(** *** The classifier *)

(** C5: for every path and every table, [category_for] returns the
    table's category when the lowercased extension of the file is a key
    of the table and ["Other"] when it is not, so two files whose
    extensions are equal after lowercasing get the same category.  Since
    [str.lower] lowers the letters of an ASCII string, two files whose
    ASCII extensions differ only by letter case classify alike; in
    particular [stem.JPG] and [stem.jpg] do, in any directory and under
    any stem. *)
Theorem category_for_spec (p : path) (categories : gmap string string) :
  (∀ c, categories !! str_lower (PurePath.suffix p) = Some c →
        category_for str_lower p categories = c) ∧
  (categories !! str_lower (PurePath.suffix p) = None →
        category_for str_lower p categories = "Other") ∧
  (∀ q, str_lower (PurePath.suffix q) = str_lower (PurePath.suffix p) →
        category_for str_lower q categories = category_for str_lower p categories) ∧
  (PyStr.agrees_on_ascii str_lower PyStr.lower →
   (∀ q, PyStr.is_ascii (PurePath.suffix p) = true →
         PyStr.is_ascii (PurePath.suffix q) = true →
         PyStr.lower (PurePath.suffix q) = PyStr.lower (PurePath.suffix p) →
         category_for str_lower q categories = category_for str_lower p categories) ∧
   (∀ dir dir' stem stem', (stem = "" ↔ stem' = "") →
      category_for str_lower (dir ++ [stem +:+ ".JPG"]) categories
      = category_for str_lower (dir' ++ [stem' +:+ ".jpg"]) categories)).
Proof.
  split_and!.
  - intros c Hc. unfold category_for. by rewrite Hc.
  - intros Hc. unfold category_for. by rewrite Hc.
  - intros q Hq. unfold category_for. by rewrite Hq.
  - intros Hl. split.
    + intros q Hp Hq Hcase. unfold category_for.
      by rewrite (Hl _ Hp), (Hl _ Hq), Hcase.
    + intros dir dir' stem stem' Hstem.
      unfold category_for, PurePath.suffix. rewrite !name_snoc.
      destruct (decide (stem = "")) as [->|Hne].
      * by rewrite (proj1 Hstem eq_refl).
      * assert (Hne' : stem' ≠ "") by (intros H; by apply Hne, Hstem).
        rewrite (proj1 (suffix_of_app_dot stem "JPG" Hne ltac:(done) eq_refl)).
        rewrite (proj1 (suffix_of_app_dot stem' "jpg" Hne' ltac:(done) eq_refl)).
        by rewrite (Hl ".JPG" eq_refl), (Hl ".jpg" eq_refl).
Qed.

(** X1: a numbered name keeps the extension of the name it comes from.
    For a name with a suffix, the name [stem (i)suffix] that
    [safe_destination] tries has the same suffix, its stem is the old
    stem followed by [ (i)], and a file under it is classified like a
    file under the original name. *)
Theorem alt_name_keeps_suffix (nm : string) (i : nat) (dir dir' : path)
    (categories : gmap string string) :
  PurePath.suffix_of nm ≠ "" →
  PurePath.suffix_of (alt_name (PurePath.stem_of nm) (PurePath.suffix_of nm) i)
    = PurePath.suffix_of nm ∧
  PurePath.stem_of (alt_name (PurePath.stem_of nm) (PurePath.suffix_of nm) i)
    = PurePath.stem_of nm +:+ " (" +:+ pretty i +:+ ")" ∧
  category_for str_lower (dir' ++ [alt_name (PurePath.stem_of nm) (PurePath.suffix_of nm)
      i])
    categories
    = category_for str_lower (dir ++ [nm]) categories.
Proof.
  intros Hsuf.
  destruct (suffix_of_shape nm) as [?|(t & Ht & Htne & Hnone)]; [done|].
  assert (Halt : alt_name (PurePath.stem_of nm) (PurePath.suffix_of nm) i
                 = (PurePath.stem_of nm +:+ " (" +:+ pretty i +:+ ")") +:+ String "." t).
  { unfold alt_name. rewrite Ht. by rewrite !append_assoc. }
  assert (Hx : PurePath.stem_of nm +:+ " (" +:+ pretty i +:+ ")" ≠ "").
  { intros H%(f_equal String.length). rewrite !length_append in H. simpl in H. lia. }
  destruct (suffix_of_app_dot _ t Hx Htne Hnone) as [Hs Hst].
  rewrite Halt, Hs, Hst, Ht. split_and!; [done | done |].
  unfold category_for, PurePath.suffix. by rewrite !name_snoc, Hs, Ht.
Qed.


Lemma lstrip_dots_no_dot (s : string) :
  PyStr.rfind_dot s = None → PyStr.lstrip_dots s = s.
Proof.
  destruct s as [|c s]; [done|]. simpl.
  destruct (PyStr.rfind_dot s); [done|]. by destruct (PyStr.is_dot c).
Qed.

Lemma of_parts_snoc (parts : list string) (last : string) :
  last ≠ "" → PurePath.of_parts (parts ++ [last]) = PurePath.of_parts parts ++ [last].
Proof.
  intros Hne. unfold PurePath.of_parts. rewrite List.filter_app. simpl.
  by destruct last.
Qed.

Lemma is_ascii_lower_ascii (c : ascii) :
  (nat_of_ascii c <? 128) = true → (nat_of_ascii (PyStr.lower_ascii c) <? 128) = true.
Proof. by destruct c as [[] [] [] [] [] [] [] []]. Qed.

Lemma is_ascii_lower (s : string) :
  PyStr.is_ascii s = true → PyStr.is_ascii (PyStr.lower s) = true.
Proof.
  induction s as [|c s IH]; simpl; [done|].
  intros [Hc Hs]%andb_true_iff. apply andb_true_iff. split; [|by apply IH].
  by apply is_ascii_lower_ascii.
Qed.

Lemma is_ascii_lstrip_dots (s : string) :
  PyStr.is_ascii s = true → PyStr.is_ascii (PyStr.lstrip_dots s) = true.
Proof.
  induction s as [|c s IH]; simpl; [done|].
  intros H. destruct (PyStr.is_dot c); [|done].
  apply andb_true_iff in H as [_ Hs]. by apply IH.
Qed.

(** The folder named after an ASCII extension is never empty and never
    holds a dot: it is [MISC], or the suffix uppercased without its dot. *)
Lemma extension_folder (nm : string) :
  PyStr.agrees_on_ascii str_lower PyStr.lower →
  PyStr.agrees_on_ascii str_upper PyStr.upper →
  PyStr.is_ascii (PurePath.suffix_of nm) = true →
  ∃ folder,
    (if PyStr.truthy (str_lower (PurePath.suffix_of nm))
     then str_upper (PyStr.lstrip_dots (str_lower (PurePath.suffix_of nm)))
     else "MISC") = folder ∧
    folder ≠ "" ∧ PyStr.rfind_dot folder = None ∧
    (PurePath.suffix_of nm = "" → folder = "MISC") ∧
    (PurePath.suffix_of nm ≠ "" → String "." folder = PyStr.upper (PurePath.suffix_of nm)).
Proof.
  intros Hl Hu Hascii. rewrite (Hl _ Hascii).
  rewrite (Hu _ (is_ascii_lstrip_dots _ (is_ascii_lower _ Hascii))).
  clear Hascii. destruct (suffix_of_shape nm) as [->|(t & -> & Htne & Hnone)].
  - exists "MISC". by split_and!.
  - exists (PyStr.upper t). simpl.
    rewrite (lstrip_dots_no_dot (PyStr.lower t)) by (by rewrite rfind_dot_lower).
    rewrite upper_lower, rfind_dot_upper.
    split_and!; [done | by destruct t | done | done | done].
Qed.

Lemma plan_rel_dir_snoc (category : string) (use_date : bool) (ext folder : string) :
  (if PyStr.truthy ext then str_upper (PyStr.lstrip_dots ext) else "MISC") = folder →
  folder ≠ "" →
  plan_rel_dir str_upper today category use_date ext
  = PurePath.of_parts ([category] ++ (if use_date then [today] else [])) ++ [folder].
Proof.
  intros Hf Hne. unfold plan_rel_dir. rewrite Hf. destruct use_date.
  - exact (of_parts_snoc [category; today] folder Hne).
  - exact (of_parts_snoc [category] folder Hne).
Qed.

(** X2: for a file whose extension is ASCII, a category that is a plain
    folder name (or empty) and a date likewise, the relative directory
    planned for the file is the category, then today's date when dates
    are on, then a folder named after the extension; an empty category
    or date is dropped, but the last folder is never empty and holds no
    dot: it is [MISC] for a file without suffix and the suffix
    uppercased without its dot otherwise. *)
Theorem plan_rel_dir_shape (category : string) (use_date : bool) (p : path) :
  PyStr.agrees_on_ascii str_lower PyStr.lower →
  PyStr.agrees_on_ascii str_upper PyStr.upper →
  PyStr.is_ascii (PurePath.suffix p) = true →
  PurePath.plain_part category = true →
  PurePath.plain_part today = true →
  ∃ folder,
    plan_rel_dir str_upper today category use_date (str_lower (PurePath.suffix p))
    = (if PyStr.truthy category then [category] else [])
      ++ (if use_date && PyStr.truthy today then [today] else []) ++ [folder] ∧
    folder ≠ "" ∧ PyStr.rfind_dot folder = None ∧
    (PurePath.suffix p = "" → folder = "MISC") ∧
    (PurePath.suffix p ≠ "" → String "." folder = PyStr.upper (PurePath.suffix p)).
Proof.
  intros Hl Hu Hascii _ _.
  destruct (extension_folder (PurePath.name p) Hl Hu Hascii)
    as (folder & Hf & Hne & Hdot & Hmisc & Hext).
  exists folder. split_and!; [|done..].
  rewrite (plan_rel_dir_snoc _ _ _ _ Hf Hne), app_assoc. f_equal.
  unfold PurePath.of_parts. destruct use_date; simpl.
  - by destruct (PyStr.truthy category), (PyStr.truthy today).
  - by destruct (PyStr.truthy category).
Qed.

(** *** When [safe_destination] fails and what it leaves *)

Lemma prefix_step (made q : path) (c : string) (todo : path) :
  made `prefix_of` q → q ≠ made → q `prefix_of` made ++ c :: todo →
  made ++ [c] `prefix_of` q.
Proof.
  intros [x ->] Hne Hq. apply prefix_app_inv in Hq.
  destruct x as [|c' x]; [by rewrite app_nil_r in Hne|].
  apply prefix_cons_inv_1 in Hq as ->.
  rewrite (cons_middle c made x), app_assoc. by apply prefix_app_r.
Qed.

(** [mkdir] succeeds exactly when no regular file stands on the way down
    to the directory asked for. *)
Lemma mkdir_from_Ok_iff (made todo : path) (fs : gmap path node) :
  (mkdir_from made todo fs).2 = Ok tt ↔
  ∀ q c r, made `prefix_of` q → q ≠ made → q `prefix_of` made ++ todo →
           fs !! q ≠ Some (File c r).
Proof.
  revert made fs. induction todo as [|x todo IH]; intros made fs; simpl.
  - split; [|done]. intros _ q c r H1 Hne H2. rewrite app_nil_r in H2.
    destruct Hne. by apply (anti_symm prefix).
  - rewrite node_at_snoc.
    assert (Hp : made ++ [x] `prefix_of` made ++ x :: todo).
    { rewrite (cons_middle x made todo), app_assoc. by apply prefix_app_r. }
    assert (Hne : made ++ [x] ≠ made).
    { intros H%(f_equal length). rewrite length_app in H. simpl in H. lia. }
    destruct (fs !! (made ++ [x])) as [[cnt rd|]|] eqn:Hx.
    + split; [done|]. intros H. exfalso. eapply H; [| |exact Hp|exact Hx]; [|done].
      by apply prefix_app_r.
    + rewrite IH. rewrite <- (app_assoc made [x] todo). simpl. split.
      * intros H q c r H1 H2 H3.
        destruct (decide (q = made ++ [x])) as [->|Hq]; [by rewrite Hx|].
        apply H; [by eapply prefix_step | done | done].
      * intros H q c r H1 H2 H3. apply H; [|  | done].
        -- etrans; [|exact H1]. by apply prefix_app_r.
        -- intros ->. apply Hne. by apply (anti_symm prefix); [|apply prefix_app_r].
    + rewrite IH. rewrite <- (app_assoc made [x] todo). simpl. split.
      * intros H q c r H1 H2 H3.
        destruct (decide (q = made ++ [x])) as [->|Hq]; [by rewrite Hx|].
        rewrite <- (lookup_insert_ne fs (made ++ [x]) q Dir) by done.
        apply H; [by eapply prefix_step | done | done].
      * intros H q c r H1 H2 H3. rewrite lookup_insert_ne by done.
        apply H; [|  | done].
        -- etrans; [|exact H1]. by apply prefix_app_r.
        -- intros ->. apply Hne. by apply (anti_symm prefix); [|apply prefix_app_r].
Qed.

(** X3: a regular file that stands where a folder is needed stops
    [safe_destination]: when the destination directory, or a directory
    above it, is a regular file, the call returns no path; it raises an
    [OSError] (from [mkdir]), having printed nothing and removed or
    replaced no entry. *)
Theorem safe_destination_stopped_by_file_in_the_way
    (dest_root rel_dir : path) (name : string) (st : state)
    (q : path) (c : list Byte.byte) (r : bool) :
  q `prefix_of` dest_root ++ rel_dir →
  node_at (files st) q = Some (File c r) →
  ∃ st' e, safe_destination dest_root rel_dir name st = (st', Raise e) ∧
           is_os_error e = true ∧ out st' = out st ∧ files st ⊆ files st'.
Proof.
  intros Hq Hfile.
  destruct (safe_destination dest_root rel_dir name st) as [st' res] eqn:H.
  apply safe_destination_inv in H as (mk & Hmk & Hout & H).
  destruct (mkdir_from_spec _ _ _ _ _ Hmk) as [Hkeep _].
  destruct mk as [[]|e].
  - exfalso. pose proof (proj1 (mkdir_from_Ok_iff [] (dest_root ++ rel_dir) (files st)))
      as Hiff.
    rewrite Hmk in Hiff. destruct q as [|x q]; [done|].
    apply (Hiff eq_refl (x :: q) c r); [apply prefix_nil | done | done | done].
  - subst res. exists st', e. split_and!; [done | | done | done].
    apply mkdir_from_raise in Hmk as [p' [-> | ->]]; done.
Qed.

(** X4: what a successful [safe_destination] leaves: the path returned
    is a direct child of the destination directory, which exists as a
    directory afterwards; it is the name asked for exactly when that name
    was free; every entry of the file system is kept, what is added are
    directories on the way to the destination directory, and nothing is
    printed. *)
Theorem safe_destination_postconditions
    (dest_root rel_dir : path) (name : string) (st st' : state) (final : path) :
  safe_destination dest_root rel_dir name st = (st', Ok final) →
  parent final = dest_root ++ rel_dir ∧
  node_at (files st') (dest_root ++ rel_dir) = Some Dir ∧
  (final = (dest_root ++ rel_dir) ++ [name] ↔
   files st !! ((dest_root ++ rel_dir) ++ [name]) = None) ∧
  files st ⊆ files st' ∧
  (∀ q n, files st' !! q = Some n →
          files st !! q = Some n ∨ (n = Dir ∧ q `prefix_of` dest_root ++ rel_dir)) ∧
  out st' = out st.
Proof.
  intros H. pose proof H as H'.
  apply safe_destination_inv in H as (mk & Hmk & Hout & H).
  destruct mk as [[]|e]; [|done]. destruct H as (k & Hk & Hfree & Hbusy).
  simplify_eq. destruct (mkdir_from_spec _ _ _ _ _ Hmk) as [Hsub Hnew].
  split_and!.
  - unfold parent. apply removelast_last.
  - by apply (mkdir_from_ok [] _ _ _ Hmk).
  - split.
    + intros Heq. rewrite <- Heq. by eapply lookup_weaken_None.
    + intros Hfree0. destruct k as [|k]; [done|]. exfalso.
      destruct (Hbusy 0 ltac:(lia)) as [n Hn]. simpl in Hn.
      by rewrite (mkdir_from_keeps_free _ _ _ _ _ Hmk Hfree0) in Hn.
  - done.
  - intros q n Hq. destruct (Hnew q n Hq) as [?|(? & _ & ?)]; auto.
  - done.
Qed.


(** *** What copying and dry runs never do *)

Lemma bind_inv {A B} (m : M A) (k : A → M B) st st2 r :
  bind m k st = (st2, r) →
  (∃ st1 a, m st = (st1, Ok a) ∧ k a st1 = (st2, r)) ∨
  (∃ e, m st = (st2, Raise e) ∧ r = Raise e).
Proof.
  unfold bind. destruct (m st) as [st1 [a|e]]; intros H; [eauto|].
  simplify_eq. eauto.
Qed.

Lemma keeps_ret {A} (a : A) : keeps_entries (ret a).
Proof. intros st st' r H. unfold ret in H. by simplify_eq. Qed.

Lemma keeps_raise {A} (e : exn) : keeps_entries (raise (A:=A) e).
Proof. intros st st' r H. unfold raise in H. by simplify_eq. Qed.

Lemma keeps_print (l : line) : keeps_entries (print l).
Proof. intros st st' r H. unfold print in H. by simplify_eq. Qed.

Lemma keeps_bind {A B} (m : M A) (k : A → M B) :
  keeps_entries m → (∀ a, keeps_entries (k a)) → keeps_entries (bind m k).
Proof.
  intros Hm Hk st st' r H. apply bind_inv in H as [(st1 & a & H1 & H2)|(e & H1 & _)].
  - etrans; [by eapply Hm | by eapply Hk].
  - by eapply Hm.
Qed.

Lemma keeps_try_except {A} (m : M A) (h : exn → M A) :
  keeps_entries m → (∀ e, keeps_entries (h e)) → keeps_entries (try_except m h).
Proof.
  intros Hm Hh st st' r H. unfold try_except in H.
  destruct (m st) as [st1 [a|e]] eqn:H1.
  - simplify_eq. by eapply Hm.
  - destruct (is_Exception e).
    + etrans; [by eapply Hm | by eapply Hh].
    + simplify_eq. by eapply Hm.
Qed.

Lemma keeps_is_dir (p : path) : keeps_entries (is_dir p).
Proof. intros st st' r H. rewrite is_dir_eq in H. by simplify_eq. Qed.

Lemma keeps_exists (p : path) : keeps_entries (exists_ p).
Proof. intros st st' r H. rewrite exists_eq in H. by simplify_eq. Qed.

Lemma keeps_read_bytes (p : path) : keeps_entries (read_bytes p).
Proof. intros st st' r H. unfold read_bytes in H. by simplify_eq. Qed.

Lemma keeps_file_sha1 (p : path) : keeps_entries (file_sha1 sha1_hex p).
Proof.
  apply keeps_bind; [apply keeps_read_bytes | intros; apply keeps_ret].
Qed.

Lemma keeps_shown_destination (dst : path) : keeps_entries (shown_destination dst).
Proof.
  unfold shown_destination.
  repeat case_match; first [apply keeps_ret | apply keeps_raise].
Qed.

Lemma keeps_safe_destination (dest_root rel_dir : path) (name : string) :
  keeps_entries (safe_destination dest_root rel_dir name).
Proof.
  intros st st' r H. apply safe_destination_inv in H as (mk & Hmk & _).
  by apply mkdir_from_spec in Hmk as [? _].
Qed.

Lemma keeps_plan_entry
    (dest : path) (use_date skip_duplicates : bool) (categories : gmap string string)
    (p : path) (c : run_counts) (seen : gset string) :
  keeps_entries (plan_entry str_lower str_upper sha1_hex today dest use_date
      skip_duplicates categories
                   p c seen).
Proof.
  unfold plan_entry.
  apply keeps_bind; [apply keeps_is_dir|]. intros d.
  destruct d; [apply keeps_ret|].
  destruct (PurePath.relative_to p dest); [apply keeps_ret|].
  apply keeps_bind; [apply keeps_safe_destination|]. intros final.
  destruct skip_duplicates; [|apply keeps_ret].
  apply keeps_bind.
  { apply keeps_try_except; [apply keeps_file_sha1 | intros; apply keeps_ret]. }
  intros digest. destruct (PyStr.truthy digest && bool_decide (digest ∈ seen)).
  - apply keeps_bind; [apply keeps_print | intros; apply keeps_ret].
  - apply keeps_ret.
Qed.

(** The destination planned for an entry is free when the planning ends. *)
Lemma plan_entry_Place_free
    (dest : path) (use_date skip_duplicates : bool) (categories : gmap string string)
    (p : path) (c c' : run_counts) (seen seen' : gset string) (st st' : state)
    (final : path) :
  plan_entry str_lower str_upper sha1_hex today dest use_date skip_duplicates categories p
      c seen st
    = (st', Ok (Place final c' seen')) →
  node_at (files st') final = None ∧ is_Some (PurePath.relative_to final dest).
Proof.
  unfold plan_entry. intros H.
  apply bind_inv_Ok in H as (st0 & d & Hd & H). rewrite is_dir_eq in Hd.
  injection Hd as <- _.
  destruct d; [ret_inv H; by simplify_eq|].
  destruct (PurePath.relative_to p dest); [ret_inv H; by simplify_eq|].
  apply bind_inv_Ok in H as (st1 & final1 & Hsafe & H).
  apply safe_destination_Ok in Hsafe as (_ & _ & Hfree & Hin).
  destruct skip_duplicates; [|ret_inv H; by simplify_eq].
  apply bind_inv_Ok in H as (st2 & digest & Hdg & H).
  apply try_file_sha1_state in Hdg as ->.
  destruct (PyStr.truthy digest && bool_decide (digest ∈ seen)).
  - unfold bind, print, ret in H. by simplify_eq.
  - ret_inv H. by simplify_eq.
Qed.

Lemma keeps_copy2_free (src dst : path) (st st' : state) (r : result unit) :
  shutil_copy2 src dst st = (st', r) →
  node_at (files st) dst = None → files st ⊆ files st'.
Proof.
  unfold shutil_copy2, bind at 1. rewrite is_dir_eq. intros H Hdst.
  rewrite Hdst in H. cbv beta iota in H.
  destruct (bool_decide (src = dst)); [unfold raise in H; by simplify_eq|].
  apply bind_inv in H as [(st1 & c & Hread & Hwrite)|(e & Hread & _)].
  - unfold read_bytes in Hread. unfold write_file in Hwrite.
    assert (st1 = st) as -> by (by simplify_eq).
    rewrite Hdst in Hwrite. destruct (node_at_None _ _ Hdst) as [Hdst' _].
    destruct (node_at (files st) (parent dst)) as [[]|]; simplify_eq; try done.
    simpl. by apply insert_subseteq.
  - unfold read_bytes in Hread. by simplify_eq.
Qed.

Lemma keeps_organize_entry_copy_or_dry
    (dest : path) (copy_mode dry_run use_date skip_duplicates : bool)
    (categories : gmap string string) (p : path) (acc : run_counts * gset string) :
  copy_mode = true ∨ dry_run = true →
  keeps_entries (organize_entry str_lower str_upper sha1_hex today dest copy_mode dry_run
      use_date
                   skip_duplicates categories p acc).
Proof.
  intros Hmode st st' r H. unfold organize_entry in H.
  apply bind_inv in H as [(st1 & pl & Hplan & H)|(e & Hplan & _)];
    [|by eapply keeps_plan_entry].
  etrans; [by eapply keeps_plan_entry|].
  destruct pl as [c1 s1|final c1 s1]; [ret_inv H; by simplify_eq|].
  apply plan_entry_Place_free in Hplan as [Hfree _].
  assert (Hmove : ∀ st2 r2, move_or_copy p final copy_mode dry_run st1 = (st2, r2) →
                            files st1 ⊆ files st2).
  { intros st2 r2 Hm. unfold move_or_copy in Hm.
    destruct dry_run; [by eapply keeps_print|].
    destruct Hmode as [->|?]; [|done].
    apply bind_inv in Hm as [(st3 & [] & Hcopy & Hm)|(e & Hcopy & _)];
      [|by eapply keeps_copy2_free].
    etrans; [by eapply keeps_copy2_free|].
    revert Hm. apply keeps_bind; [apply keeps_shown_destination|].
    intros. apply keeps_print. }
  apply bind_inv in H as [(st2 & c2 & Hplace & H)|(e & Hplace & _)].
  - ret_inv H. simplify_eq. unfold place in Hplace.
    apply bind_inv in Hplace as [(st3 & [] & Hm & Hret)|(e & Hm & _)];
      [ret_inv Hret; simplify_eq|]; by eapply Hmove.
  - unfold place in Hplace.
    apply bind_inv in Hplace as [(st3 & [] & Hm & Hret)|(e' & Hm & _)];
      [ret_inv Hret; simplify_eq|]; by eapply Hmove.
Qed.

Lemma keeps_organize_loop_copy_or_dry
    (dest : path) (copy_mode dry_run use_date skip_duplicates : bool)
    (categories : gmap string string) (walk : list path)
    (acc : run_counts * gset string) :
  copy_mode = true ∨ dry_run = true →
  keeps_entries (organize_loop str_lower str_upper sha1_hex today dest copy_mode dry_run
      use_date
                   skip_duplicates categories walk acc).
Proof.
  intros Hmode. revert acc. induction walk as [|p walk IH]; intros acc; simpl.
  - apply keeps_ret.
  - apply keeps_bind; [by apply keeps_organize_entry_copy_or_dry | done].
Qed.

(** X5: in copy mode and in a dry run, [organize] never removes,
    replaces or alters an entry of the file system: every path that held
    a file or a directory before the run holds the same one after it,
    whether the run returns its counters or stops on an error. *)
Theorem copy_and_dry_run_keep_every_entry
    (source dest : path) (copy_mode dry_run use_date skip_duplicates : bool)
    (categories : gmap string string) (st st' : state) (r : result run_counts) :
  copy_mode = true ∨ dry_run = true →
  organize str_lower str_upper sha1_hex today rglob source dest copy_mode dry_run use_date
    skip_duplicates categories st = (st', r) →
  ∀ q n, files st !! q = Some n → files st' !! q = Some n.
Proof.
  intros Hmode H q n Hq. eapply lookup_weaken; [exact Hq|].
  revert H. apply keeps_bind; [apply keeps_exists|]. intros e.
  apply keeps_bind; [apply keeps_is_dir|]. intros d.
  destruct (negb e || negb d); [apply keeps_raise|].
  apply keeps_bind. { intros s s' r' H. by simplify_eq. }
  intros walk. apply keeps_bind; [by apply keeps_organize_loop_copy_or_dry|].
  intros. apply keeps_ret.
Qed.


(** *** The errors a run can end with *)

(** X6: outside a dry run, once the copy or the move itself has
    succeeded, [move_or_copy] prints the [OK] line, unless the destination
    has exactly two components: then [dst.parents[2]] does not exist and
    the call raises [IndexError], with the file already copied or moved
    and no line printed. *)
Theorem move_or_copy_after_placing
    (src dst : path) (copy_mode : bool) (st st1 : state) :
  (if copy_mode then shutil_copy2 src dst else shutil_move src dst) st = (st1, Ok tt) →
  move_or_copy src dst copy_mode false st
  = if decide (length dst = 2) then (st1, Raise IndexError)
    else (State (files st1) (out st1 ++ [OkLine copy_mode src dst]), Ok tt).
Proof.
  intros H. unfold move_or_copy. rewrite (bind_Ok _ _ _ _ _ H).
  unfold shown_destination, bind, print, ret, raise.
  destruct (decide (length dst = 2)) as [Heq|Hne].
  - rewrite Heq. reflexivity.
  - destruct (2 <=? length dst) eqn:H2; [|done].
    destruct (3 <=? length dst) eqn:H3; [done|].
    apply Nat.leb_le in H2. apply Nat.leb_gt in H3. lia.
Qed.

Lemma try_file_sha1_Ok (p : path) (st : state) :
  ∃ d, try_except (file_sha1 sha1_hex p) (λ _, ret "") st = (st, Ok d).
Proof.
  unfold try_except. destruct (file_sha1 sha1_hex p st) as [st1 [d|e]] eqn:Hsha.
  - exists d. unfold file_sha1, bind, read_bytes, ret in Hsha.
    destruct (node_at (files st) p) as [[c []|]|]; by simplify_eq.
  - apply file_sha1_raises_Exception in Hsha as [-> ->]. by exists "".
Qed.

Lemma plan_entry_raises
    (dest : path) (use_date skip_duplicates : bool) (categories : gmap string string)
    (p : path) (c : run_counts) (seen : gset string) (st st' : state) (e : exn) :
  plan_entry str_lower str_upper sha1_hex today dest use_date skip_duplicates categories p
      c seen st
    = (st', Raise e) →
  is_os_error e = true.
Proof.
  unfold plan_entry. intros H.
  apply bind_inv in H as [(st0 & d & Hd & H)|(e0 & Hd & _)];
    [|rewrite is_dir_eq in Hd; done].
  destruct d; [ret_inv H; done|].
  destruct (PurePath.relative_to p dest); [ret_inv H; done|].
  apply bind_inv in H as [(st1 & final & Hsafe & H)|(e0 & Hsafe & ?)].
  - destruct skip_duplicates; [|ret_inv H; done].
    destruct (try_file_sha1_Ok p st1) as [dg Hdg].
    rewrite (bind_Ok _ _ _ _ _ Hdg) in H.
    destruct (PyStr.truthy dg && bool_decide (dg ∈ seen)).
    + unfold bind, print, ret in H. done.
    + ret_inv H. done.
  - apply safe_destination_inv in Hsafe as (mk & Hmk & _ & Hres).
    destruct mk as [[]|e']; [by destruct Hres as (? & ? & _)|]. simplify_eq.
    by apply mkdir_from_raise in Hmk as (q & [->| ->]).
Qed.

Lemma category_for_nonempty (p : path) (categories : gmap string string) :
  (∀ k v, categories !! k = Some v → v ≠ "") → category_for str_lower p categories ≠ "".
Proof.
  intros Hne. unfold category_for.
  destruct (categories !! _) as [v|] eqn:Hv; simpl; [by eapply Hne | done].
Qed.

(** With no empty category in the table, the destination planned for a
    file with an ASCII extension has the destination root, at least two
    folders and the file name. *)
Lemma plan_entry_Place_length
    (dest : path) (use_date skip_duplicates : bool) (categories : gmap string string)
    (p : path) (c c' : run_counts) (seen seen' : gset string) (st st' : state)
    (final : path) :
  PyStr.agrees_on_ascii str_lower PyStr.lower →
  PyStr.agrees_on_ascii str_upper PyStr.upper →
  PyStr.is_ascii (PurePath.suffix p) = true →
  (∀ k v, categories !! k = Some v → v ≠ "") →
  plan_entry str_lower str_upper sha1_hex today dest use_date skip_duplicates categories p
      c seen st
    = (st', Ok (Place final c' seen')) →
  length dest + 3 ≤ length final.
Proof.
  intros Hl Hu Hascii Hne H. unfold plan_entry in H.
  apply bind_inv_Ok in H as (st0 & d & Hd & H).
  destruct d; [ret_inv H; by simplify_eq|].
  destruct (PurePath.relative_to p dest); [ret_inv H; by simplify_eq|].
  apply bind_inv_Ok in H as (st1 & final1 & Hsafe & H).
  assert (final1 = final) as ->.
  { destruct skip_duplicates; [|ret_inv H; by simplify_eq].
    apply bind_inv_Ok in H as (st2 & digest & Hdg & H).
    destruct (PyStr.truthy digest && bool_decide (digest ∈ seen)).
    - unfold bind, print, ret in H. by simplify_eq.
    - ret_inv H. by simplify_eq. }
  apply safe_destination_inv in Hsafe as (mk & _ & _ & Hres).
  destruct mk as [[]|]; [|done]. destruct Hres as (k & Hk & _). simplify_eq.
  destruct (extension_folder (PurePath.name p) Hl Hu Hascii) as (folder & Hf & Hfne & _).
  rewrite (plan_rel_dir_snoc _ _ _ folder Hf Hfne).
  pose proof (category_for_nonempty p categories Hne) as Hcat.
  rewrite !length_app. simpl.
  destruct (category_for str_lower p categories); [done|]. simpl. lia.
Qed.

Lemma shutil_copy2_raises (src dst : path) (st st' : state) (e : exn) :
  shutil_copy2 src dst st = (st', Raise e) → is_os_error e = true.
Proof.
  unfold shutil_copy2, bind, is_dir, read_bytes, write_file, raise.
  intros H. repeat case_match; by simplify_eq.
Qed.

Lemma shutil_move_raises (src dst : path) (st st' : state) (e : exn) :
  shutil_move src dst st = (st', Raise e) → is_os_error e = true.
Proof.
  unfold shutil_move, bind, is_dir, exists_, raise.
  intros H. repeat case_match; by simplify_eq.
Qed.

Lemma organize_entry_raises
    (dest : path) (copy_mode dry_run use_date skip_duplicates : bool)
    (categories : gmap string string) (p : path) (acc : run_counts * gset string)
    (st st' : state) (e : exn) :
  PyStr.agrees_on_ascii str_lower PyStr.lower →
  PyStr.agrees_on_ascii str_upper PyStr.upper →
  PyStr.is_ascii (PurePath.suffix p) = true →
  (∀ k v, categories !! k = Some v → v ≠ "") →
  organize_entry str_lower str_upper sha1_hex today dest copy_mode dry_run use_date
      skip_duplicates
    categories p acc st = (st', Raise e) →
  is_os_error e = true.
Proof.
  intros Hl Hu Hascii Hne H. unfold organize_entry in H.
  apply bind_inv in H as [(st1 & pl & Hplan & H)|(e0 & Hplan & ?)];
    [|simplify_eq; by eapply plan_entry_raises].
  destruct pl as [c1 s1|final c1 s1]; [ret_inv H; done|].
  apply plan_entry_Place_length in Hplan; [|done..].
  apply bind_inv in H as [(st2 & c2 & _ & H)|(e0 & Hplace & ?)]; [ret_inv H; done|].
  simplify_eq.
  unfold place in Hplace.
  apply bind_inv in Hplace as [(st3 & [] & _ & H)|(e1 & Hmove & ?)]; [ret_inv H; done|].
  simplify_eq. unfold move_or_copy in Hmove.
  destruct dry_run; [unfold print in Hmove; done|].
  apply bind_inv in Hmove as [(st3 & [] & _ & H)|(e2 & Hact & ?)].
  - unfold shown_destination, bind, print, ret, raise in H.
    destruct (2 <=? length final) eqn:H2; [|apply Nat.leb_gt in H2; lia].
    destruct (3 <=? length final) eqn:H3; [done | apply Nat.leb_gt in H3; lia].
  - simplify_eq. destruct copy_mode;
      [by eapply shutil_copy2_raises | by eapply shutil_move_raises].
Qed.

Lemma organize_loop_raises
    (dest : path) (copy_mode dry_run use_date skip_duplicates : bool)
    (categories : gmap string string) (walk : list path)
    (acc : run_counts * gset string) (st st' : state) (e : exn) :
  PyStr.agrees_on_ascii str_lower PyStr.lower →
  PyStr.agrees_on_ascii str_upper PyStr.upper →
  Forall (λ p, PyStr.is_ascii (PurePath.suffix p) = true) walk →
  (∀ k v, categories !! k = Some v → v ≠ "") →
  organize_loop str_lower str_upper sha1_hex today dest copy_mode dry_run use_date
      skip_duplicates
    categories walk acc st = (st', Raise e) →
  is_os_error e = true.
Proof.
  intros Hl Hu Hascii Hne. revert acc st.
  induction Hascii as [|p walk Hp Hwalk IH]; intros acc st Hloop;
    simpl in Hloop; [ret_inv Hloop; done|].
  apply bind_inv in Hloop as [(s1 & acc1 & _ & Hrest)|(e0 & Hentry & ?)].
  - by eapply IH.
  - simplify_eq. by eapply organize_entry_raises.
Qed.

(** X7: the [OK] line never raises [IndexError] inside a run.  When
    every category of the table is a non-empty plain folder name (the
    default table is such a table) and the extensions of the entries
    scanned are ASCII, a destination has at least two folders above the
    file, so [dst.parents[2]] exists: a run of [organize] that ends with
    an error never ends with [IndexError]. *)
Theorem no_IndexError_inside_a_run
    (source dest : path) (copy_mode dry_run use_date skip_duplicates : bool)
    (categories : gmap string string) (st st' : state) (e : exn) :
  PyStr.agrees_on_ascii str_lower PyStr.lower →
  PyStr.agrees_on_ascii str_upper PyStr.upper →
  Forall (λ p, PyStr.is_ascii (PurePath.suffix p) = true) (rglob (files st) source) →
  (∀ k v, categories !! k = Some v → v ≠ "" ∧ PurePath.plain_part v = true) →
  PurePath.plain_part today = true →
  organize str_lower str_upper sha1_hex today rglob source dest copy_mode dry_run use_date
    skip_duplicates categories st = (st', Raise e) →
  e ≠ IndexError.
Proof.
  intros Hl Hu Hascii Hplain _ H.
  assert (Hne : ∀ k v, categories !! k = Some v → v ≠ "").
  { intros k v Hkv. by destruct (Hplain k v Hkv). }
  assert (node_at (files st) source = Some Dir ∨ node_at (files st) source ≠ Some Dir)
    as [Hsrc|Hsrc] by (destruct (node_at (files st) source) as [[]|]; auto).
  - rewrite organize_runs_loop in H by done.
    apply bind_inv in H as [(st1 & acc & _ & H)|(e0 & Hloop & ?)]; [ret_inv H; done|].
    simplify_eq. intros ->.
    by pose proof (organize_loop_raises _ _ _ _ _ _ _ _ _ _ _ Hl Hu Hascii Hne Hloop).
  - rewrite organize_bad_source_raises in H by done. by simplify_eq.
Qed.


(** *** Counters and progress lines *)

Lemma shutil_copy2_out (src dst : path) (st st' : state) (r : result unit) :
  shutil_copy2 src dst st = (st', r) → out st' = out st.
Proof.
  unfold shutil_copy2, bind, is_dir, read_bytes, write_file, raise.
  intros H. repeat case_match; by simplify_eq.
Qed.

Lemma shutil_move_out (src dst : path) (st st' : state) (r : result unit) :
  shutil_move src dst st = (st', r) → out st' = out st.
Proof.
  unfold shutil_move, bind, is_dir, exists_, raise.
  intros H. repeat case_match; by simplify_eq.
Qed.

Lemma move_or_copy_out (src dst : path) (copy_mode dry_run : bool) (st st' : state) :
  move_or_copy src dst copy_mode dry_run st = (st', Ok tt) →
  out st' = out st ++ [placement_line dry_run copy_mode src dst].
Proof.
  unfold move_or_copy, placement_line. intros H.
  destruct dry_run; [unfold print in H; by simplify_eq|].
  apply bind_inv_Ok in H as (st1 & [] & Hact & H).
  apply bind_inv_Ok in H as (st2 & shown & Hshown & H).
  assert (st2 = st1) as ->.
  { unfold shown_destination in Hshown.
    by repeat case_match; unfold ret, raise in Hshown; simplify_eq. }
  unfold print in H. simplify_eq. simpl. f_equal.
  destruct copy_mode; [by eapply shutil_copy2_out | by eapply shutil_move_out].
Qed.

(** The ways the planning of an entry can end, with what it has counted
    and printed. *)
Lemma plan_entry_cases
    (dest : path) (use_date skip_duplicates : bool) (categories : gmap string string)
    (p : path) (c : run_counts) (seen : gset string) (st st' : state) (pl : planned) :
  plan_entry str_lower str_upper sha1_hex today dest use_date skip_duplicates categories p
      c seen st
    = (st', Ok pl) →
  (is_directory (files st) p = true ∧ pl = Continue c seen ∧ st' = st) ∨
  (is_directory (files st) p = false ∧ is_Some (PurePath.relative_to p dest) ∧
   pl = Continue (incr_skipped c) seen ∧ st' = st) ∨
  (is_directory (files st) p = false ∧ PurePath.relative_to p dest = None ∧
   skip_duplicates = true ∧
   (∃ d, pl = Continue (incr_skipped (incr_processed c)) seen ∧
         out st' = out st ++ [SkipLine d p])) ∨
  (is_directory (files st) p = false ∧ PurePath.relative_to p dest = None ∧
   (∃ final seen', pl = Place final (incr_processed c) seen') ∧ out st' = out st).
Proof.
  unfold plan_entry. intros H.
  apply bind_inv_Ok in H as (st0 & d & Hd & H). rewrite is_dir_eq in Hd.
  injection Hd as <- <-. fold (is_directory (files st) p) in H.
  destruct (is_directory (files st) p); [ret_inv H; simplify_eq; by left|].
  destruct (PurePath.relative_to p dest) as [rel|] eqn:Hr.
  { ret_inv H. simplify_eq. right; left. eauto. }
  apply bind_inv_Ok in H as (st1 & final & Hsafe & H).
  apply safe_destination_inv in Hsafe as (_ & _ & Hout & _).
  destruct skip_duplicates.
  - apply bind_inv_Ok in H as (st2 & digest & Hdg & H).
    apply try_file_sha1_state in Hdg as ->.
    destruct (PyStr.truthy digest && bool_decide (digest ∈ seen)).
    + unfold bind, print, ret in H. simplify_eq. right; right; left.
      split_and!; try done. exists digest. simpl. by rewrite Hout.
    + ret_inv H. simplify_eq. right; right; right. split_and!; eauto.
  - ret_inv H. simplify_eq. right; right; right. split_and!; eauto.
Qed.

(** What one turn of the loop does to the counters and to the console. *)
Lemma organize_entry_accounting
    (dest : path) (copy_mode dry_run use_date skip_duplicates : bool)
    (categories : gmap string string)
    (p : path) (acc acc' : run_counts * gset string) (st st' : state) :
  organize_entry str_lower str_upper sha1_hex today dest copy_mode dry_run use_date
      skip_duplicates
    categories p acc st = (st', Ok acc') →
  processed acc.1 ≤ processed acc'.1 ≤ S (processed acc.1) ∧
  length (out st') + processed acc.1 = length (out st) + processed acc'.1 ∧
  (moved acc.1 ≤ moved acc'.1 ∧ copied acc.1 ≤ copied acc'.1 ∧
   skipped acc.1 ≤ skipped acc'.1) ∧
  moved acc'.1 + copied acc'.1 + skipped acc'.1
    ≤ S (moved acc.1 + copied acc.1 + skipped acc.1) ∧
  (copy_mode = true ∨ dry_run = true → moved acc'.1 = moved acc.1) ∧
  (copy_mode = false ∨ dry_run = true → copied acc'.1 = copied acc.1) ∧
  (skip_duplicates = false → PurePath.relative_to p dest = None →
   skipped acc'.1 = skipped acc.1).
Proof.
  unfold organize_entry. intros H.
  apply bind_inv_Ok in H as (st1 & pl & Hplan & H).
  apply plan_entry_cases in Hplan
    as [(_ & -> & ->)|[(_ & [rel Hrel] & -> & ->)|[(_ & _ & Hskip & d & -> & Hout)
        |(_ & _ & (final & seen' & ->) & Hout)]]].
  - ret_inv H. simplify_eq. simpl. split_and!; try lia; done.
  - ret_inv H. simplify_eq. simpl. rewrite Hrel. split_and!; try lia; done.
  - ret_inv H. simplify_eq. simpl. rewrite Hout, length_app. simpl.
    split_and!; try lia; done.
  - apply bind_inv_Ok in H as (st2 & c2 & Hplace & H). ret_inv H. simplify_eq.
    unfold place in Hplace. apply bind_inv_Ok in Hplace as (st3 & [] & Hmove & Hc).
    ret_inv Hc. simplify_eq. apply move_or_copy_out in Hmove.
    rewrite Hmove, length_app, Hout. simpl.
    destruct dry_run, copy_mode; simpl; split_and!; try lia; try done;
      intros [?|?]; done.
Qed.

Lemma organize_loop_accounting
    (dest : path) (copy_mode dry_run use_date skip_duplicates : bool)
    (categories : gmap string string)
    (walk : list path) (acc acc' : run_counts * gset string) (st st' : state) :
  organize_loop str_lower str_upper sha1_hex today dest copy_mode dry_run use_date
      skip_duplicates
    categories walk acc st = (st', Ok acc') →
  processed acc.1 ≤ processed acc'.1 ≤ length walk + processed acc.1 ∧
  length (out st') + processed acc.1 = length (out st) + processed acc'.1 ∧
  (moved acc.1 ≤ moved acc'.1 ∧ copied acc.1 ≤ copied acc'.1 ∧
   skipped acc.1 ≤ skipped acc'.1) ∧
  moved acc'.1 + copied acc'.1 + skipped acc'.1
    ≤ length walk + (moved acc.1 + copied acc.1 + skipped acc.1) ∧
  (copy_mode = true ∨ dry_run = true → moved acc'.1 = moved acc.1) ∧
  (copy_mode = false ∨ dry_run = true → copied acc'.1 = copied acc.1) ∧
  (skip_duplicates = false →
   Forall (λ p, PurePath.relative_to p dest = None) walk →
   skipped acc'.1 = skipped acc.1).
Proof.
  revert acc st. induction walk as [|p walk IH]; intros acc st H; simpl in H.
  { ret_inv H. simplify_eq. simpl. split_and!; try lia; done. }
  apply bind_inv_Ok in H as (st1 & acc1 & He & H).
  apply organize_entry_accounting in He
    as (Hp & Ho & (Hm & Hc & Hs) & Hsum & Hmv & Hcp & Hsk).
  apply IH in H as (Hp' & Ho' & (Hm' & Hc' & Hs') & Hsum' & Hmv' & Hcp' & Hsk').
  simpl. split_and!; try lia.
  - intros Hmode. rewrite Hmv', Hmv; done.
  - intros Hmode. rewrite Hcp', Hcp; done.
  - intros Hoff Hall. inversion Hall; subst. rewrite Hsk', Hsk; done.
Qed.

(** X8: a run that returns has printed exactly one line for each file it
    counted as processed (the [OK], [DRY-RUN] or [SKIP] line), and none
    for the directories and for the files inside the destination root. *)
Theorem one_line_per_processed_file
    (source dest : path) (copy_mode dry_run use_date skip_duplicates : bool)
    (categories : gmap string string) (st st' : state) (c : run_counts) :
  organize str_lower str_upper sha1_hex today rglob source dest copy_mode dry_run use_date
    skip_duplicates categories st = (st', Ok c) →
  length (out st') = length (out st) + processed c.
Proof.
  intros H.
  assert (node_at (files st) source = Some Dir) as Hsrc.
  { destruct (node_at (files st) source) as [[]|] eqn:Hn; try done;
      rewrite organize_bad_source_raises in H by (by rewrite Hn); done. }
  rewrite organize_runs_loop in H by done.
  apply bind_inv_Ok in H as (st1 & acc & Hloop & H). ret_inv H. simplify_eq.
  apply organize_loop_accounting in Hloop as (_ & Ho & _). simpl in Ho. lia.
Qed.

(** X9: the counters of a run that returns never exceed the number of
    entries the walk yielded: [processed] does not, and neither does
    [moved + copied + skipped].  Copy mode counts nothing as moved, move
    mode nothing as copied, a dry run neither; and with duplicate-skipping
    off and no entry inside the destination root, nothing is skipped. *)
Theorem counters_bounded_by_walk
    (source dest : path) (copy_mode dry_run use_date skip_duplicates : bool)
    (categories : gmap string string) (st st' : state) (c : run_counts) :
  organize str_lower str_upper sha1_hex today rglob source dest copy_mode dry_run use_date
    skip_duplicates categories st = (st', Ok c) →
  processed c ≤ length (rglob (files st) source) ∧
  moved c + copied c + skipped c ≤ length (rglob (files st) source) ∧
  (copy_mode = true ∨ dry_run = true → moved c = 0) ∧
  (copy_mode = false ∨ dry_run = true → copied c = 0) ∧
  (skip_duplicates = false →
   Forall (λ p, PurePath.relative_to p dest = None) (rglob (files st) source) →
   skipped c = 0).
Proof.
  intros H.
  assert (node_at (files st) source = Some Dir) as Hsrc.
  { destruct (node_at (files st) source) as [[]|] eqn:Hn; try done;
      rewrite organize_bad_source_raises in H by (by rewrite Hn); done. }
  rewrite organize_runs_loop in H by done.
  apply bind_inv_Ok in H as (st1 & acc & Hloop & H). ret_inv H. simplify_eq.
  apply organize_loop_accounting in Hloop as (Hp & _ & _ & Hsum & Hmv & Hcp & Hsk).
  simpl in *. split_and!; [lia | lia | done | done | done].
Qed.


Lemma organize_entry_inside_dest
    (dest : path) (copy_mode dry_run use_date skip_duplicates : bool)
    (categories : gmap string string)
    (p : path) (c : run_counts) (seen : gset string) (st : state) :
  is_Some (PurePath.relative_to p dest) →
  organize_entry str_lower str_upper sha1_hex today dest copy_mode dry_run use_date
      skip_duplicates
    categories p (c, seen) st
  = (st, Ok (if is_directory (files st) p then c else incr_skipped c, seen)).
Proof.
  intros [rel Hrel]. unfold organize_entry, plan_entry. simpl.
  unfold bind at 1. unfold bind at 1. rewrite is_dir_eq.
  fold (is_directory (files st) p).
  destruct (is_directory (files st) p); [done|]. by rewrite Hrel.
Qed.

Lemma organize_loop_inside_dest
    (dest : path) (copy_mode dry_run use_date skip_duplicates : bool)
    (categories : gmap string string)
    (walk : list path) (c : run_counts) (seen : gset string) (st : state) :
  Forall (λ p, is_Some (PurePath.relative_to p dest)) walk →
  organize_loop str_lower str_upper sha1_hex today dest copy_mode dry_run use_date
      skip_duplicates
    categories walk (c, seen) st
  = (st, Ok (Counts (processed c) (moved c) (copied c)
               (skipped c
                + length (List.filter (λ p, negb (is_directory (files st) p)) walk)),
             seen)).
Proof.
  intros Hall. revert c. induction Hall as [|p walk Hp Hall IH]; intros c; simpl.
  - unfold ret. rewrite Nat.add_0_r. by destruct c.
  - rewrite (bind_Ok _ _ _ _ _ (organize_entry_inside_dest _ _ _ _ _ _ _ _ _ _ Hp)).
    rewrite IH. destruct (is_directory (files st) p); simpl; [done|].
    by rewrite Nat.add_succ_r.
Qed.

(** X10: a walk that only yields entries inside the destination root
    (as when the source is the destination itself) changes nothing:
    the file system and the console are as before, nothing is processed,
    moved or copied, and [skipped] is the number of entries that are not
    directories. *)
Theorem walk_inside_dest_changes_nothing
    (source dest : path) (copy_mode dry_run use_date skip_duplicates : bool)
    (categories : gmap string string) (st : state) :
  node_at (files st) source = Some Dir →
  Forall (λ p, is_Some (PurePath.relative_to p dest)) (rglob (files st) source) →
  organize str_lower str_upper sha1_hex today rglob source dest copy_mode dry_run use_date
    skip_duplicates categories st
  = (st, Ok (Counts 0 0 0
               (length (List.filter (λ p, negb (is_directory (files st) p))
                          (rglob (files st) source))))).
Proof.
  intros Hsrc Hall. rewrite organize_runs_loop by done.
  unfold bind. by rewrite (organize_loop_inside_dest _ _ _ _ _ _ _ _ _ _ Hall).
Qed.


(** *** How many files a run with duplicate-skipping places *)

Section DedupeCounts.

Hypothesis sha1_hex_nonempty : ∀ b, sha1_hex b ≠ "".

Variables (dest : path) (copy_mode dry_run use_date : bool).
Variable categories : gmap string string.

Lemma organize_entry_processed (skip_duplicates : bool)
    (p : path) (c : list Byte.byte) (r : bool)
    (acc acc' : run_counts * gset string) (st st' : state) :
  node_at (files st) p = Some (File c r) →
  PurePath.relative_to p dest = None →
  organize_entry str_lower str_upper sha1_hex today dest copy_mode dry_run use_date
      skip_duplicates
    categories p acc st = (st', Ok acc') →
  processed acc'.1 = S (processed acc.1).
Proof.
  intros Hp Hout H. unfold organize_entry in H.
  apply bind_inv_Ok in H as (st1 & pl & Hplan & H).
  assert (Hnd : is_directory (files st) p = false).
  { unfold is_directory. by rewrite Hp. }
  apply plan_entry_cases in Hplan
    as [(Hd & _)|[(_ & [rel Hrel] & _)|[(_ & _ & _ & d & -> & _)
        |(_ & _ & (final & seen' & ->) & _)]]]; [congruence | congruence | |].
  - ret_inv H. by simplify_eq.
  - apply bind_inv_Ok in H as (st2 & c2 & Hplace & H). ret_inv H. simplify_eq.
    apply place_counts in Hplace as ->. by destruct dry_run, copy_mode.
Qed.

Lemma organize_loop_dedupe_counts (walk : list path) :
  ∀ (acc acc' : run_counts * gset string) (st st' : state),
  NoDup walk →
  (∀ p, p ∈ walk →
        (∃ c, node_at (files st) p = Some (File c true)) ∧
        PurePath.relative_to p dest = None) →
  organize_loop str_lower str_upper sha1_hex today dest copy_mode dry_run use_date true
      categories
    walk acc st = (st', Ok acc') →
  acc'.2 = acc.2 ∪ list_to_set (digest_of sha1_hex (files st) <$> walk) ∧
  processed acc'.1 = length walk + processed acc.1 ∧
  skipped acc'.1 + size acc'.2 = length walk + (skipped acc.1 + size acc.2).
Proof.
  induction walk as [|p walk IH]; intros [cnt seen] [cnt' seen'] st st' Hnd Hfiles Hrun.
  { simpl in Hrun. ret_inv Hrun. simplify_eq. simpl. split_and!; [set_solver|done..]. }
  simpl in Hrun. apply bind_inv_Ok in Hrun as (st1 & [cnt1 seen1] & Hstep & Hrun).
  apply NoDup_cons in Hnd as [Hp Hnd].
  destruct (Hfiles p ltac:(left)) as [[c Hc] Hpout].
  pose proof (organize_entry_processed true _ _ _ _ _ _ _ Hc Hpout Hstep) as Hproc.
  destruct (organize_entry_dedupe sha1_hex_nonempty _ _ _ _ _ _ _ _ _ _ _ _ _ Hc Hpout
              Hstep)
    as (Hframe1 & -> & l & _ & Hskip1 & Hl).
  assert (Hsame : ∀ q, q ∈ walk → node_at (files st1) q = node_at (files st) q).
  { intros q Hq. destruct (Hfiles q ltac:(by right)) as [[cq Hcq] _].
    destruct (node_at_File _ _ _ _ Hcq) as [Hcq' Hqne]. rewrite Hcq.
    apply node_at_lookup; [|done]. apply Hframe1; [|done]. intros ->. done. }
  destruct (IH (cnt1, {[sha1_hex c]} ∪ seen) (cnt', seen') st1 st' Hnd)
    as (Hseen & Hp' & Hsum).
  { intros q Hq. rewrite (Hsame q Hq). apply Hfiles. by right. }
  { done. }
  simpl in *.
  assert (Hmap : digest_of sha1_hex (files st1) <$> walk
                 = digest_of sha1_hex (files st) <$> walk).
  { apply list_fmap_ext. intros k x Hk. unfold digest_of.
    rewrite Hsame; [done|]. by eapply list_elem_of_lookup_2. }
  assert (Hdp : digest_of sha1_hex (files st) p = sha1_hex c).
  { unfold digest_of. by rewrite Hc. }
  rewrite Hmap in Hseen. rewrite Hdp. split_and!.
  - rewrite Hseen. clear. set_solver.
  - lia.
  - destruct (bool_decide (sha1_hex c ∈ seen)) eqn:Hin.
    + apply bool_decide_eq_true in Hin. subst l. simpl in Hskip1.
      replace ({[sha1_hex c]} ∪ seen) with seen in Hsum by (clear -Hin; set_solver).
      lia.
    + apply bool_decide_eq_false in Hin. destruct Hl as (dst & -> & _).
      assert (is_skip_line (placement_line dry_run copy_mode p dst) = false) as Hns
        by (unfold placement_line; by destruct dry_run).
      rewrite Hns in Hskip1.
      rewrite size_union, size_singleton in Hsum by (clear -Hin; set_solver). lia.
Qed.

(** X11: with duplicate-skipping on, a run over distinct readable regular
    files outside the destination root that returns has processed every
    entry, has skipped as many entries as there are beyond the first of
    each digest, and, outside a dry run, has moved or copied exactly as
    many files as there are distinct digests. *)
Theorem dedupe_places_one_per_digest
    (source : path) (st st' : state) (c : run_counts) :
  NoDup (rglob (files st) source) →
  (∀ p, p ∈ rglob (files st) source →
        (∃ b, node_at (files st) p = Some (File b true)) ∧
        PurePath.relative_to p dest = None) →
  organize str_lower str_upper sha1_hex today rglob source dest copy_mode dry_run use_date
      true
    categories st = (st', Ok c) →
  let digests : gset string :=
    list_to_set (digest_of sha1_hex (files st) <$> rglob (files st) source) in
  processed c = length (rglob (files st) source) ∧
  skipped c + size digests = length (rglob (files st) source) ∧
  (dry_run = false → moved c + copied c = size digests).
Proof.
  intros Hnd Hfiles Hrun digests.
  assert (Hrun' := Hrun).
  apply (organize_Ok_runs_loop dest copy_mode dry_run use_date categories)
    in Hrun as (seen' & Hloop).
  destruct (organize_loop_dedupe_counts _ _ _ _ _ Hnd Hfiles Hloop)
    as (Hseen & Hproc & Hsum).
  cbn [fst snd processed skipped] in Hseen, Hproc, Hsum. rewrite size_empty in Hsum.
  assert (seen' = digests) as -> by (rewrite Hseen; subst digests; set_solver).
  split_and!; [lia | lia |].
  intros ->. apply organize_loop_counts in Hloop as [_ Hbal]. simpl in Hbal.
  assert (Hall : Forall (λ p, PurePath.relative_to p dest = None)
                   (rglob (files st) source)).
  { apply Forall_forall. intros p Hp. by apply Hfiles. }
  specialize (Hbal Hall). lia.
Qed.

End DedupeCounts.


(** *** Runs without duplicate-skipping *)

Section Plain.

Variables (dest : path) (copy_mode use_date : bool).
Variable categories : gmap string string.

(** The file system after a successful copy or move of a regular file to
    a free path. *)
Lemma move_or_copy_files (src dst : path) (st st' : state)
    (c : list Byte.byte) (r : bool) :
  move_or_copy src dst copy_mode false st = (st', Ok tt) →
  node_at (files st) src = Some (File c r) →
  node_at (files st) dst = None →
  files st' = if copy_mode then <[dst := File c r]> (files st)
              else <[dst := File c r]> (delete src (files st)).
Proof.
  unfold move_or_copy. intros H Hsrc Hdst.
  apply bind_inv_Ok in H as (st1 & [] & Hact & H).
  apply bind_inv_Ok in H as (st2 & shown & Hshown & H).
  assert (st2 = st1) as ->.
  { unfold shown_destination in Hshown.
    by repeat case_match; unfold ret, raise in Hshown; simplify_eq. }
  unfold print in H. simplify_eq. simpl. destruct copy_mode.
  - apply shutil_copy2_Ok in Hact as (c' & Hc' & ->); [|done].
    rewrite Hsrc in Hc'. by simplify_eq.
  - by apply (shutil_move_Ok _ _ _ _ c r) in Hact as ->.
Qed.

Lemma organize_entry_plain (p : path) (c : list Byte.byte) (r : bool)
    (acc acc' : run_counts * gset string) (st st' : state) :
  node_at (files st) p = Some (File c r) →
  PurePath.relative_to p dest = None →
  organize_entry str_lower str_upper sha1_hex today dest copy_mode false use_date false
      categories
    p acc st = (st', Ok acc') →
  ∃ dst,
    out st' = out st ++ [OkLine copy_mode p dst] ∧
    is_Some (PurePath.relative_to dst dest) ∧
    files st !! dst = None ∧
    files st' !! dst = Some (File c r) ∧
    (∀ q n, q ≠ p → files st !! q = Some n → files st' !! q = Some n) ∧
    (∀ q n, files st' !! q = Some n → q ≠ dst → files st !! q = Some n ∨ n = Dir) ∧
    (if copy_mode then files st' !! p = Some (File c r) else files st' !! p = None).
Proof.
  intros Hp Hout H. unfold organize_entry in H.
  apply bind_inv_Ok in H as (st1 & pl & Hplan & H).
  pose proof (plan_entry_frame _ _ _ _ _ _ _ _ _ _ Hplan) as [Hsub Hnew].
  assert (Hnd : is_directory (files st) p = false).
  { unfold is_directory. by rewrite Hp. }
  pose proof Hplan as Hcases. apply plan_entry_cases in Hcases
    as [(Hd & _)|[(_ & [rel Hrel] & _)|[(_ & _ & ? & _)
        |(_ & _ & (final & seen' & ->) & Hout1)]]]; [congruence..|].
  apply plan_entry_Place_free in Hplan as [Hfree Hin].
  apply bind_inv_Ok in H as (st2 & c2 & Hplace & H). ret_inv H. simplify_eq.
  unfold place in Hplace. apply bind_inv_Ok in Hplace as (st3 & [] & Hmove & Hc).
  ret_inv Hc. simplify_eq.
  destruct (node_at_File _ _ _ _ Hp) as [Hp' Hpne].
  destruct (node_at_None _ _ Hfree) as [Hfree' _].
  assert (Hp1 : node_at (files st1) p = Some (File c r)).
  { apply node_at_lookup; [|done]. by apply (lookup_weaken _ _ _ _ Hp' Hsub). }
  pose proof (move_or_copy_out _ _ _ _ _ _ Hmove) as Hlines.
  apply (move_or_copy_files _ _ _ _ c r) in Hmove; [|done..].
  assert (Hne : final ≠ p) by (intros ->; rewrite Hfree in Hp1; done).
  exists final. rewrite Hmove. split_and!.
  - by rewrite Hlines, Hout1.
  - done.
  - by eapply lookup_weaken_None.
  - destruct copy_mode; apply lookup_insert_eq.
  - intros q n Hq Hn. pose proof (lookup_weaken _ _ _ _ Hn Hsub) as Hn1.
    assert (q ≠ final) by (intros ->; congruence).
    destruct copy_mode; rewrite lookup_insert_ne by done; [done|].
    by rewrite lookup_delete_ne.
  - intros q n Hq Hqf. apply Hnew.
    destruct copy_mode; rewrite lookup_insert_ne in Hq by done; [done|].
    by apply lookup_delete_Some in Hq as [_ ?].
  - destruct copy_mode.
    + rewrite lookup_insert_ne by done. by apply (lookup_weaken _ _ _ _ Hp' Hsub).
    + rewrite lookup_insert_ne by done. apply lookup_delete_eq.
Qed.

Lemma organize_loop_plain (walk : list path) :
  ∀ (acc acc' : run_counts * gset string) (st st' : state),
  NoDup walk →
  (∀ p, p ∈ walk →
        (∃ c r, node_at (files st) p = Some (File c r)) ∧
        PurePath.relative_to p dest = None) →
  organize_loop str_lower str_upper sha1_hex today dest copy_mode false use_date false
      categories
    walk acc st = (st', Ok acc') →
  ∃ lines,
    out st' = out st ++ lines ∧ length lines = length walk ∧
    (∀ q n, q ∉ walk → files st !! q = Some n → files st' !! q = Some n) ∧
    (∀ q c r, files st' !! q = Some (File c r) →
              files st !! q = Some (File c r) ∨ is_Some (PurePath.relative_to q dest)) ∧
    ∀ i p c r, walk !! i = Some p → node_at (files st) p = Some (File c r) →
      ∃ dst, lines !! i = Some (OkLine copy_mode p dst) ∧
             is_Some (PurePath.relative_to dst dest) ∧
             files st !! dst = None ∧
             files st' !! dst = Some (File c r) ∧
             (if copy_mode then files st' !! p = Some (File c r)
              else ∀ c' r', files st' !! p ≠ Some (File c' r')).
Proof.
  induction walk as [|p walk IH]; intros acc acc' st st' Hnd Hfiles Hrun.
  { simpl in Hrun. ret_inv Hrun. simplify_eq. exists [].
    rewrite app_nil_r. split_and!; try done. eauto. }
  simpl in Hrun. apply bind_inv_Ok in Hrun as (st1 & acc1 & Hstep & Hrun).
  apply NoDup_cons in Hnd as [Hp Hnd].
  destruct (Hfiles p ltac:(left)) as [(c & r & Hc) Hpout].
  destruct (organize_entry_plain _ _ _ _ _ _ _ Hc Hpout Hstep)
    as (dst & Hout1 & Hdst & Hfree & Hplaced & Hframe1 & Hnew1 & Hsrc).
  assert (Hsame : ∀ q, q ∈ walk → node_at (files st1) q = node_at (files st) q).
  { intros q Hq. destruct (Hfiles q ltac:(by right)) as [(cq & rq & Hcq) _].
    destruct (node_at_File _ _ _ _ Hcq) as [Hcq' Hqne]. rewrite Hcq.
    apply node_at_lookup; [|done]. apply Hframe1; [|done]. intros ->. done. }
  destruct (IH acc1 acc' st1 st' Hnd) as (lines & Hout & Hlen & Hframe & Hnew & Hidx).
  { intros q Hq. rewrite (Hsame q Hq). apply Hfiles. by right. }
  { done. }
  assert (Hdstw : dst ∉ walk).
  { intros Hin. destruct (Hfiles dst ltac:(by right)) as [_ Hout'].
    destruct Hdst. congruence. }
  exists (OkLine copy_mode p dst :: lines). split_and!.
  - by rewrite Hout, Hout1, <- app_assoc.
  - simpl. by rewrite Hlen.
  - intros q n Hq Hn. apply not_elem_of_cons in Hq as [Hqp Hq]. eauto.
  - intros q cq rq Hq. destruct (Hnew q cq rq Hq) as [Hq1|?]; [|by right].
    destruct (decide (q = dst)) as [->|Hqd]; [by right|].
    destruct (Hnew1 q _ Hq1 Hqd) as [?|?]; [by left | done].
  - intros [|i] q cq rq Hi Hq; simpl in Hi.
    + simplify_eq.
      exists dst. split_and!; [done | done | done | by eapply Hframe |].
      destruct copy_mode; [by eapply Hframe|].
      intros c' r' Hthere. destruct (Hnew q c' r' Hthere) as [?|[rel Hrel]]; congruence.
    + assert (Hqw : q ∈ walk) by (by eapply list_elem_of_lookup_2).
      rewrite <- (Hsame q Hqw) in Hq.
      destruct (Hidx i q cq rq Hi Hq) as (dq & Hline & Hdq & Hfreeq & Hthere & Hsrcq).
      exists dq. split_and!; [done | done | | done | done].
      destruct (files st !! dq) as [n|] eqn:Hn; [|done].
      rewrite (Hframe1 dq n) in Hfreeq; [done | | done].
      intros ->. destruct Hdq. congruence.
Qed.

(** X12: without duplicate-skipping and outside a dry run, with a table
    whose categories are plain folder names and a plain date, a run over
    distinct regular files outside the destination root that returns
    prints one [OK] line per entry, in the order of the walk, and for
    each entry there is a destination inside the destination root that
    was free before the run and holds the bytes (and the mode) of the
    file after it.  In copy mode the source file is still in place; in
    move mode no regular file is left at its path.  Every entry of the
    file system that the walk did not yield is as it was. *)
Theorem plain_run_relocates_every_file
    (source : path) (st st' : state) (cnt : run_counts) :
  (∀ k v, categories !! k = Some v → PurePath.plain_part v = true) →
  PurePath.plain_part today = true →
  NoDup (rglob (files st) source) →
  (∀ p, p ∈ rglob (files st) source →
        (∃ c r, node_at (files st) p = Some (File c r)) ∧
        PurePath.relative_to p dest = None) →
  organize str_lower str_upper sha1_hex today rglob source dest copy_mode false use_date
      false
    categories st = (st', Ok cnt) →
  ∃ lines,
    out st' = out st ++ lines ∧
    length lines = length (rglob (files st) source) ∧
    (∀ q n, q ∉ rglob (files st) source →
            files st !! q = Some n → files st' !! q = Some n) ∧
    ∀ i p c r, rglob (files st) source !! i = Some p →
      node_at (files st) p = Some (File c r) →
      ∃ dst, lines !! i = Some (OkLine copy_mode p dst) ∧
             is_Some (PurePath.relative_to dst dest) ∧
             files st !! dst = None ∧
             files st' !! dst = Some (File c r) ∧
             (if copy_mode then files st' !! p = Some (File c r)
              else ∀ c' r', files st' !! p ≠ Some (File c' r')).
Proof.
  intros _ _ Hnd Hfiles Hrun.
  assert (node_at (files st) source = Some Dir) as Hsrc.
  { destruct (node_at (files st) source) as [[]|] eqn:Hn; try done;
      rewrite organize_bad_source_raises in Hrun by (by rewrite Hn); done. }
  rewrite organize_runs_loop in Hrun by done.
  apply bind_inv_Ok in Hrun as (st1 & acc & Hloop & H). ret_inv H. simplify_eq.
  destruct (organize_loop_plain _ _ _ _ _ Hnd Hfiles Hloop)
    as (lines & Hout & Hlen & Hframe & _ & Hidx).
  exists lines. by split_and!.
Qed.

End Plain.


(** *** The layout of the destination tree and the summary *)

(** X13: for an entry with an ASCII extension, a table whose categories
    are plain folder names and a plain date, the destination planned for
    the entry is [dest/category/[date/]folder/name], where the category
    is the one [category_for] gives, the date is there when dates are on
    (an empty category or date is left out), the folder is [MISC] or the
    uppercased extension, and the name is the name of the entry or that
    name with a number; the path is free when the planning ends. *)
Theorem planned_destination_layout
    (dest : path) (use_date skip_duplicates : bool) (categories : gmap string string)
    (p : path) (c c' : run_counts) (seen seen' : gset string) (st st' : state)
    (final : path) :
  PyStr.agrees_on_ascii str_lower PyStr.lower →
  PyStr.agrees_on_ascii str_upper PyStr.upper →
  PyStr.is_ascii (PurePath.suffix p) = true →
  (∀ k v, categories !! k = Some v → PurePath.plain_part v = true) →
  PurePath.plain_part today = true →
  plan_entry str_lower str_upper sha1_hex today dest use_date skip_duplicates categories p
      c seen st
    = (st', Ok (Place final c' seen')) →
  ∃ folder k,
    final = dest
            ++ PurePath.of_parts ([category_for str_lower p categories]
                                  ++ (if use_date then [today] else []))
            ++ [folder] ++ [candidate_name (PurePath.name p) k] ∧
    folder ≠ "" ∧
    (PurePath.suffix p = "" → folder = "MISC") ∧
    (PurePath.suffix p ≠ "" → String "." folder = PyStr.upper (PurePath.suffix p)) ∧
    node_at (files st') final = None.
Proof.
  intros Hl Hu Hascii _ _ H.
  pose proof (plan_entry_Place_free _ _ _ _ _ _ _ _ _ _ _ _ H) as [Hfree _].
  unfold plan_entry in H.
  apply bind_inv_Ok in H as (st0 & d & Hd & H).
  destruct d; [ret_inv H; by simplify_eq|].
  destruct (PurePath.relative_to p dest); [ret_inv H; by simplify_eq|].
  apply bind_inv_Ok in H as (st1 & final1 & Hsafe & H).
  assert (final1 = final) as ->.
  { destruct skip_duplicates; [|ret_inv H; by simplify_eq].
    apply bind_inv_Ok in H as (st2 & digest & Hdg & H).
    destruct (PyStr.truthy digest && bool_decide (digest ∈ seen)).
    - unfold bind, print, ret in H. by simplify_eq.
    - ret_inv H. by simplify_eq. }
  apply safe_destination_inv in Hsafe as (mk & _ & _ & Hres).
  destruct mk as [[]|]; [|done]. destruct Hres as (k & Hk & _). simplify_eq.
  destruct (extension_folder (PurePath.name p) Hl Hu Hascii)
    as (folder & Hf & Hfne & _ & Hmisc & Hext).
  exists folder, k. split_and!; [|done..].
  rewrite (plan_rel_dir_snoc _ _ _ folder Hf Hfne). by rewrite <- !app_assoc.
Qed.

(** X14: [main] prints the summary exactly when [organize] returns: the
    console then holds the lines of the run followed by the header and
    the four counters in the order processed, moved, copied, skipped
    (so [processed + 5] lines were printed in all), and the file system
    is as [organize] left it.  When [organize] raises, [main] raises the
    same error from the same state, without a summary. *)
Theorem main_prints_summary_after_run (a : args) (st st' : state) (r : result unit) :
  main str_lower str_upper sha1_hex today rglob a st = (st', r) →
  match r with
  | Ok _ =>
      ∃ st1 c,
        organize str_lower str_upper sha1_hex today rglob (arg_source a) (arg_dest a)
            (arg_copy a)
          (arg_dry_run a) (arg_by_date a) (arg_skip_duplicates a)
          DEFAULT_CATEGORIES st = (st1, Ok c) ∧
        files st' = files st1 ∧
        out st' = out st1 ++ [ SummaryHeader;
                               SummaryLine "processed" (processed c);
                               SummaryLine "moved" (moved c);
                               SummaryLine "copied" (copied c);
                               SummaryLine "skipped" (skipped c) ] ∧
        length (out st') = length (out st) + processed c + 5
  | Raise e =>
      organize str_lower str_upper sha1_hex today rglob (arg_source a) (arg_dest a)
          (arg_copy a)
        (arg_dry_run a) (arg_by_date a) (arg_skip_duplicates a)
        DEFAULT_CATEGORIES st = (st', Raise e)
  end.
Proof.
  unfold main. intros H.
  apply bind_inv in H as [(st1 & c & Horg & H)|(e & Horg & ->)]; [|done].
  unfold bind, print in H. simpl in H. simplify_eq.
  exists st1, c. split_and!; [done | done | by rewrite <- !app_assoc |].
  assert (node_at (files st) (arg_source a) = Some Dir) as Hsrc.
  { destruct (node_at (files st) (arg_source a)) as [[]|] eqn:Hn; try done;
      rewrite organize_bad_source_raises in Horg by (by rewrite Hn); done. }
  rewrite organize_runs_loop in Horg by done.
  apply bind_inv_Ok in Horg as (st2 & acc & Hloop & Hret). ret_inv Hret. simplify_eq.
  apply organize_loop_accounting in Hloop as (_ & Ho & _). simpl in Ho.
  cbn [out]. rewrite !length_app. simpl. lia.
Qed.


(** *** What happens to a duplicate *)

Section DuplicatesStay.

Hypothesis sha1_hex_nonempty : ∀ b, sha1_hex b ≠ "".

Variables (dest : path) (copy_mode dry_run use_date : bool).
Variable categories : gmap string string.

(** A turn of the loop on a file whose digest has been seen only makes
    directories. *)
Lemma organize_entry_duplicate (p : path) (c : list Byte.byte)
    (acc acc' : run_counts * gset string) (st st' : state) :
  node_at (files st) p = Some (File c true) →
  PurePath.relative_to p dest = None →
  sha1_hex c ∈ acc.2 →
  organize_entry str_lower str_upper sha1_hex today dest copy_mode dry_run use_date true
      categories
    p acc st = (st', Ok acc') →
  files st ⊆ files st'.
Proof.
  intros Hp Hout Hseen H. unfold organize_entry in H.
  apply bind_inv_Ok in H as (st1 & pl & Hplan & H).
  pose proof (keeps_plan_entry _ _ _ _ _ _ _ _ _ _ Hplan) as Hsub.
  assert (st' = st1) as ->; [|done].
  unfold plan_entry in Hplan.
  rewrite (bind_Ok _ _ _ _ _ (is_dir_eq p st)), Hp, Hout in Hplan.
  apply bind_inv_Ok in Hplan as (st2 & final & Hsafe & Hplan).
  apply keeps_safe_destination in Hsafe.
  destruct (node_at_File _ _ _ _ Hp) as [Hp' Hpne].
  assert (Hp2 : node_at (files st2) p = Some (File c true)).
  { apply node_at_lookup; [|done]. by apply (lookup_weaken _ _ _ _ Hp' Hsafe). }
  unfold bind at 1, try_except in Hplan.
  rewrite (file_sha1_Ok _ _ _ Hp2), (truthy_digest sha1_hex_nonempty) in Hplan.
  rewrite bool_decide_eq_true_2 in Hplan by done. simpl in Hplan.
  unfold bind, print, ret in Hplan. simplify_eq. ret_inv H. by simplify_eq.
Qed.

(** X15: with duplicate-skipping on, in a run over distinct readable
    regular files outside the destination root that returns, a file whose
    digest an earlier entry of the walk has is left where it was, with its
    bytes, in move mode as in copy mode. *)
Theorem skipped_duplicate_stays_in_place
    (source : path) (st st' : state) (cnt : run_counts)
    (i : nat) (p : path) (c : list Byte.byte) :
  NoDup (rglob (files st) source) →
  (∀ p, p ∈ rglob (files st) source →
        (∃ c, node_at (files st) p = Some (File c true)) ∧
        PurePath.relative_to p dest = None) →
  organize str_lower str_upper sha1_hex today rglob source dest copy_mode dry_run use_date
      true
    categories st = (st', Ok cnt) →
  rglob (files st) source !! i = Some p →
  node_at (files st) p = Some (File c true) →
  sha1_hex c ∈ digest_of sha1_hex (files st) <$> take i (rglob (files st) source) →
  files st' !! p = Some (File c true).
Proof.
  intros Hnd Hfiles Hrun Hi Hp Hdup.
  apply (organize_Ok_runs_loop dest copy_mode dry_run use_date categories)
    in Hrun as (seen' & Hloop).
  revert Hloop Hi Hdup Hfiles Hnd Hp.
  generalize (Counts 0 0 0 0, (∅ : gset string)).
  assert (Hgen : ∀ walk (acc : run_counts * gset string) s i,
    organize_loop str_lower str_upper sha1_hex today dest copy_mode dry_run use_date true
        categories
      walk acc s = (st', Ok (cnt, seen')) →
    walk !! i = Some p →
    sha1_hex c ∈ acc.2 ∨ sha1_hex c ∈ digest_of sha1_hex (files s) <$> take i walk →
    (∀ q, q ∈ walk → (∃ b, node_at (files s) q = Some (File b true)) ∧
                      PurePath.relative_to q dest = None) →
    NoDup walk → node_at (files s) p = Some (File c true) →
    files st' !! p = Some (File c true)).
  { clear i. induction walk as [|q walk IH]; intros acc s i Hloop Hi Hdup Hfiles Hnd Hp;
      [done|].
    simpl in Hloop. apply bind_inv_Ok in Hloop as (s1 & acc1 & Hstep & Hloop).
    apply NoDup_cons in Hnd as [Hq Hnd].
    destruct (Hfiles q ltac:(left)) as [[b Hb] Hqout].
    destruct acc as [cnt0 seen0], acc1 as [cnt1 seen1].
    destruct (organize_entry_dedupe sha1_hex_nonempty _ _ _ _ _ _ _ _ _ _ _ _ _ Hb Hqout
                Hstep) as (Hframe1 & -> & _).
    assert (Hsame : ∀ x, x ∈ walk → node_at (files s1) x = node_at (files s) x).
    { intros x Hx. destruct (Hfiles x ltac:(by right)) as [[cx Hcx] _].
      destruct (node_at_File _ _ _ _ Hcx) as [Hcx' Hxne]. rewrite Hcx.
      apply node_at_lookup; [|done]. apply Hframe1; [|done]. intros ->. done. }
    destruct (node_at_File _ _ _ _ Hp) as [Hp' Hpne].
    destruct i as [|i]; simpl in Hi.
    - injection Hi as ->. assert (b = c) as -> by congruence.
      destruct Hdup as [Hdup|Hdup]; [|by apply elem_of_nil in Hdup].
      pose proof (organize_entry_duplicate _ _ _ _ _ _ Hp Hqout Hdup Hstep) as Hsub.
      assert (Hfiles1 : ∀ x, x ∈ walk →
                (∃ b, node_at (files s1) x = Some (File b true)) ∧
                PurePath.relative_to x dest = None).
      { intros x Hx. rewrite (Hsame x Hx). apply Hfiles. by right. }
      destruct (organize_loop_dedupe sha1_hex_nonempty _ _ _ _ _ _ _ _ _ _ _ _ Hnd
                  Hfiles1 Hloop) as (_ & _ & _ & Hframe & _).
      apply Hframe; [done|]. by apply (lookup_weaken _ _ _ _ Hp' Hsub).
    - assert (Hpw : p ∈ walk) by (by eapply list_elem_of_lookup_2).
      apply (IH _ s1 i Hloop Hi).
      + simpl in Hdup. destruct Hdup as [Hdup|Hdup]; [left; set_solver|].
        apply elem_of_cons in Hdup as [Hdup|Hdup].
        * left. unfold digest_of in Hdup. rewrite Hb in Hdup. simpl. set_solver.
        * right. erewrite list_fmap_ext; [exact Hdup|].
          intros k x Hk. unfold digest_of. rewrite Hsame; [done|].
          apply (subseteq_take i walk). by eapply list_elem_of_lookup_2.
      + intros x Hx. rewrite (Hsame x Hx). apply Hfiles. by right.
      + done.
      + by rewrite (Hsame p Hpw). }
  intros acc Hloop Hi Hdup Hfiles Hnd Hp. eapply Hgen; eauto.
Qed.

End DuplicatesStay.

(** *** Duplicate-skipping over any walk *)











Section DedupeWalk.

Hypothesis sha1_hex_nonempty : ∀ b, sha1_hex b ≠ "".

Variables (dest : path) (copy_mode dry_run use_date : bool).
Variable categories : gmap string string.





End DedupeWalk.


(** *** A placement that fails *)

Lemma shutil_copy2_Raise (src dst : path) (st st' : state) (e : exn) :
  shutil_copy2 src dst st = (st', Raise e) → st' = st.
Proof.
  unfold shutil_copy2, bind, is_dir, read_bytes, write_file, raise.
  intros H. repeat case_match; by simplify_eq.
Qed.

Lemma shutil_move_Raise (src dst : path) (st st' : state) (e : exn) :
  shutil_move src dst st = (st', Raise e) → st' = st.
Proof.
  unfold shutil_move, bind, is_dir, exists_, raise.
  intros H. repeat case_match; by simplify_eq.
Qed.

(** A failing [move_or_copy] of a regular file to a free path prints
    nothing and keeps every other entry of the file system: either the
    copy or the move itself failed and nothing changed, or the file is
    at its destination and the [OK] line failed. *)
Lemma move_or_copy_Raise (src dst : path) (copy_mode dry_run : bool) (st st' : state)
    (e : exn) (c : list Byte.byte) (r : bool) :
  move_or_copy src dst copy_mode dry_run st = (st', Raise e) →
  node_at (files st) src = Some (File c r) →
  node_at (files st) dst = None →
  ∀ q n, q ≠ src → files st !! q = Some n → files st' !! q = Some n.
Proof.
  unfold move_or_copy. intros H Hsrc Hdst q n Hq Hn.
  destruct (node_at_None _ _ Hdst) as [Hdst' _].
  destruct dry_run; [unfold print in H; done|].
  apply bind_inv in H as [(st1 & [] & Hact & H)|(e0 & Hact & _)].
  - assert (st' = st1) as ->.
    { unfold bind, shown_destination, print, ret, raise in H.
      by repeat case_match; simplify_eq. }
    assert (q ≠ dst) by congruence.
    destruct copy_mode.
    + apply shutil_copy2_Ok in Hact as (c' & _ & ->); [|done]. simpl.
      by rewrite lookup_insert_ne.
    + apply (shutil_move_Ok _ _ _ _ c r) in Hact as ->; [|done..]. simpl.
      rewrite lookup_insert_ne by done. by rewrite lookup_delete_ne.
  - destruct copy_mode;
      [apply shutil_copy2_Raise in Hact as -> | apply shutil_move_Raise in Hact as ->];
      done.
Qed.

Lemma move_or_copy_Raise_out (src dst : path) (copy_mode dry_run : bool)
    (st st' : state) (e : exn) :
  move_or_copy src dst copy_mode dry_run st = (st', Raise e) → out st' = out st.
Proof.
  unfold move_or_copy. intros H.
  destruct dry_run; [unfold print in H; done|].
  apply bind_inv in H as [(st1 & [] & Hact & H)|(e0 & Hact & _)].
  - assert (st' = st1) as ->.
    { unfold bind, shown_destination, print, ret, raise in H.
      by repeat case_match; simplify_eq. }
    destruct copy_mode; [by eapply shutil_copy2_out | by eapply shutil_move_out].
  - destruct copy_mode; [by eapply shutil_copy2_out | by eapply shutil_move_out].
Qed.

(** C9, amended: when moving or copying one file fails, [organize]
    stops there: the error leaves [organize], which returns no counters,
    whatever entries the walk still had to yield.  Nothing is printed
    for the file that failed, and when that file is a regular file every
    other entry the file system had when it was reached, so every file
    placed before it, is still there when the run ends. *)
Theorem placement_failure_aborts
    (source dest : path) (copy_mode dry_run use_date skip_duplicates : bool)
    (categories : gmap string string)
    (pre : list path) (p : path) (rest : list path)
    (st st1 st2 st3 : state) (acc1 : run_counts * gset string)
    (final : path) (c2 : run_counts) (seen2 : gset string) (e : exn) :
  node_at (files st) source = Some Dir →
  rglob (files st) source = pre ++ p :: rest →
  organize_loop str_lower str_upper sha1_hex today dest copy_mode dry_run use_date
    skip_duplicates categories pre (Counts 0 0 0 0, ∅) st = (st1, Ok acc1) →
  plan_entry str_lower str_upper sha1_hex today dest use_date skip_duplicates categories
    p acc1.1 acc1.2 st1 = (st2, Ok (Place final c2 seen2)) →
  move_or_copy p final copy_mode dry_run st2 = (st3, Raise e) →
  organize str_lower str_upper sha1_hex today rglob source dest copy_mode dry_run use_date
    skip_duplicates categories st = (st3, Raise e) ∧
  out st3 = out st1 ∧
  ∀ c r, node_at (files st1) p = Some (File c r) →
    ∀ q n, q ≠ p → files st1 !! q = Some n → files st3 !! q = Some n.
Proof.
  intros Hsrc Hwalk Hpre Hplan Hmove. split_and!.
  - rewrite organize_runs_loop by done. rewrite Hwalk.
    apply bind_Raise. rewrite (organize_loop_app _ _ _ _ _ _ _ _ _ _ _ _ Hpre).
    simpl. apply bind_Raise. unfold organize_entry.
    rewrite (bind_Ok _ _ _ _ _ Hplan). apply bind_Raise.
    unfold place. by apply bind_Raise.
  - rewrite (move_or_copy_Raise_out _ _ _ _ _ _ _ Hmove).
    apply plan_entry_cases in Hplan
      as [(_ & ? & _)|[(_ & _ & ? & _)|[(_ & _ & _ & d & ? & _)|(_ & _ & _ & Hout)]]];
      done.
  - intros c r Hp q n Hq Hn.
    destruct (plan_entry_frame _ _ _ _ _ _ _ _ _ _ Hplan) as [Hsub _].
    destruct (plan_entry_Place_free _ _ _ _ _ _ _ _ _ _ _ _ Hplan) as [Hfree _].
    destruct (node_at_File _ _ _ _ Hp) as [Hp' Hpne].
    apply (move_or_copy_Raise _ _ _ _ _ _ _ c r Hmove); [|done..|].
    + apply node_at_lookup; [|done]. by apply (lookup_weaken _ _ _ _ Hp' Hsub).
    + by apply (lookup_weaken _ _ _ _ Hn Hsub).
Qed.

End OrganizerProperties.

(** ** The properties on concrete runs *)

Lemma demo_digest_nonempty (b : list Byte.byte) : demo_digest b ≠ "".
Proof. unfold demo_digest. by rewrite append_cons. Qed.

Lemma category_for_default_examples :
  category_for PyStr.lower ["s"; "a.JPG"] DEFAULT_CATEGORIES = "Images" ∧
  category_for PyStr.lower ["s"; ".bashrc"] DEFAULT_CATEGORIES = "Other" ∧
  category_for PyStr.lower ["s"; "a.tar.gz"] DEFAULT_CATEGORIES = "Archives".
Proof. vm_compute. done. Qed.

Lemma category_for_spec_witness :
  category_for PyStr.lower ["s"; "photo.JPG"] DEFAULT_CATEGORIES = "Images" ∧
  category_for PyStr.lower ["s"; "notes.xyz"] DEFAULT_CATEGORIES = "Other" ∧
  category_for PyStr.lower ["t"; "PHOTO.JPG"] DEFAULT_CATEGORIES
    = category_for PyStr.lower ["s"; "photo.jpg"] DEFAULT_CATEGORIES.
Proof.
  pose proof (category_for_spec PyStr.lower ["s"; "photo.JPG"] DEFAULT_CATEGORIES)
    as (H1 & _ & _ & H4).
  pose proof (category_for_spec PyStr.lower ["s"; "notes.xyz"] DEFAULT_CATEGORIES)
    as (_ & H2 & _).
  destruct (H4 (λ s _, eq_refl)) as [_ H5].
  split; [|split].
  - apply H1. vm_compute. reflexivity.
  - apply H2. vm_compute. reflexivity.
  - apply (H5 ["t"] ["s"] "PHOTO" "photo"). split; discriminate.
Defined.

(** End-to-end scenario 1 of the specification. *)
Lemma scenario_move_two_files :
  (run_demo walk_two fs_two ["d"] false false false).2 = Ok (Counts 2 2 0 0) ∧
  let fs' := files (run_demo walk_two fs_two ["d"] false false false).1 in
  fs' !! ["d"; "Images"; "JPG"; "a.jpg"] = Some (File bytes_A true) ∧
  fs' !! ["d"; "Documents"; "TXT"; "b.txt"] = Some (File bytes_B true) ∧
  fs' !! ["s"; "a.jpg"] = None ∧ fs' !! ["s"; "b.txt"] = None.
Proof. vm_compute. done. Qed.

(** C1 as stated fails when the destination root lies inside the source:
    the file already in it is counted in [skipped] and not in
    [processed]. *)
Lemma counters_unbalanced_inside_dest :
  ∃ c, (run_demo walk_overlap fs_overlap ["s"; "out"] false false false).2 = Ok c ∧
       processed c = 0 ∧ moved c + copied c + skipped c = 1 ∧
       processed c ≠ moved c + copied c + skipped c.
Proof. exists (Counts 0 0 0 1). vm_compute. done. Qed.

Lemma counters_balance_witness :
  run_demo walk_two fs_two ["d"] false false false
    = ((run_demo walk_two fs_two ["d"] false false false).1, Ok (Counts 2 2 0 0)) ∧
  Forall (λ p, PurePath.relative_to p ["d"] = None) walk_two ∧
  processed (Counts 2 2 0 0)
    = moved (Counts 2 2 0 0) + copied (Counts 2 2 0 0) + skipped (Counts 2 2 0 0).
Proof.
  assert (Hrun : run_demo walk_two fs_two ["d"] false false false
    = ((run_demo walk_two fs_two ["d"] false false false).1, Ok (Counts 2 2 0 0))).
  { vm_compute. reflexivity. }
  assert (Hout : Forall (λ p, PurePath.relative_to p ["d"] = None) walk_two).
  { repeat constructor. }
  split; [exact Hrun|]. split; [exact Hout|].
  exact (proj2 (counters_balance PyStr.lower PyStr.upper demo_digest demo_today (walk_of
      walk_two)
                  ["s"] ["d"] false false false DEFAULT_CATEGORIES
                  (State fs_two []) _ (Counts 2 2 0 0) Hrun) Hout).
Defined.

(** C2 fails on the code: a dry run makes the directories of the
    destination tree. *)
Lemma dry_run_creates_directories :
  (run_demo walk_two fs_two ["d"] false true false).2 = Ok (Counts 2 0 0 0) ∧
  let fs' := files (run_demo walk_two fs_two ["d"] false true false).1 in
  fs_two !! ["d"] = None ∧ fs_two !! ["d"; "Images"; "JPG"] = None ∧
  fs' !! ["d"] = Some Dir ∧ fs' !! ["d"; "Images"; "JPG"] = Some Dir ∧
  fs' !! ["d"; "Documents"; "TXT"] = Some Dir ∧
  fs' !! ["s"; "a.jpg"] = Some (File bytes_A true) ∧
  fs' !! ["d"; "Images"; "JPG"; "a.jpg"] = None ∧
  fs' ≠ fs_two.
Proof.
  split; [vm_compute; reflexivity|]. cbv zeta. split_and!; try (vm_compute; reflexivity).
  intros Heq. apply (f_equal (λ m : gmap path node, m !! ["d"])) in Heq.
  vm_compute in Heq. discriminate.
Qed.

Lemma organize_rejects_bad_source_witness :
  node_at fs_two ["missing"] ≠ Some Dir ∧
  organize PyStr.lower PyStr.upper demo_digest demo_today (walk_of walk_two) ["missing"]
      ["d"]
    false false false false DEFAULT_CATEGORIES (State fs_two [])
    = (State fs_two [], Raise (SystemExit ["missing"])) ∧
  main PyStr.lower PyStr.upper demo_digest demo_today (walk_of walk_two)
    (Args ["missing"] ["d"] false false false false) (State fs_two [])
    = (State fs_two [], Raise (SystemExit ["missing"])).
Proof.
  assert (H : node_at (files (State fs_two [])) ["missing"] ≠ Some Dir).
  { vm_compute. discriminate. }
  split; [exact H|].
  exact (organize_rejects_bad_source PyStr.lower PyStr.upper demo_digest demo_today
      (walk_of walk_two)
           ["missing"] ["d"] false false false false DEFAULT_CATEGORIES
           (State fs_two []) H).
Defined.

Lemma inside_dest_is_only_skipped_witness :
  organize_entry PyStr.lower PyStr.upper demo_digest demo_today ["s"; "out"] false false
      false true
    DEFAULT_CATEGORIES ["s"; "out"; "x.txt"] (Counts 3 1 1 1, ∅) (State fs_overlap [])
  = (State fs_overlap [], Ok (Counts 3 1 1 2, ∅)).
Proof.
  refine (proj1 (inside_dest_is_only_skipped PyStr.lower PyStr.upper demo_digest
      demo_today ["s"; "out"]
                   false false false true DEFAULT_CATEGORIES ["s"; "out"; "x.txt"] []
                   (Counts 3 1 1 1) ∅ (State fs_overlap []) _ _)).
  - vm_compute. discriminate.
  - vm_compute. eauto.
Defined.

(** C9 as stated fails: in copy mode the unreadable first file makes
    [shutil.copy2] raise, the error leaves [organize], no counters are
    returned and the second file is never looked at. *)
Lemma placement_failure_stops_run :
  let run := run_demo walk_unreadable fs_unreadable ["d"] true false false in
  run.2 = Raise (PermissionError ["s"; "a.txt"]) ∧
  (∀ c, run.2 ≠ Ok c) ∧
  files run.1 !! ["d"; "Documents"; "TXT"; "b.txt"] = None ∧
  out run.1 = [].
Proof. cbv zeta. split_and!; try (vm_compute; reflexivity). intros c. vm_compute.
    discriminate. Qed.

(** The readable file comes first: it is copied, then the copy of the
    unreadable one fails, and the copy made before is still there. *)
Lemma placement_failure_aborts_witness :
  let st1 := (organize_loop PyStr.lower PyStr.upper demo_digest demo_today ["d"] true
                false false false DEFAULT_CATEGORIES [["s"; "b.txt"]]
                (Counts 0 0 0 0, ∅) (State fs_unreadable [])).1 in
  let st3 := (run_demo walk_unreadable_last fs_unreadable ["d"] true false false).1 in
  run_demo walk_unreadable_last fs_unreadable ["d"] true false false
  = (st3, Raise (PermissionError ["s"; "a.txt"])) ∧
  out st3 = out st1 ∧
  files st3 !! ["d"; "Documents"; "TXT"; "b.txt"] = Some (File bytes_B true).
Proof.
  cbv zeta.
  destruct (placement_failure_aborts PyStr.lower PyStr.upper demo_digest demo_today
              (walk_of walk_unreadable_last)
              ["s"] ["d"] true false false false DEFAULT_CATEGORIES
              [["s"; "b.txt"]] ["s"; "a.txt"] []
              (State fs_unreadable [])
              (organize_loop PyStr.lower PyStr.upper demo_digest demo_today ["d"] true
                 false false false DEFAULT_CATEGORIES [["s"; "b.txt"]]
                 (Counts 0 0 0 0, ∅) (State fs_unreadable [])).1
              (run_demo walk_unreadable_last fs_unreadable ["d"] true false false).1
              (run_demo walk_unreadable_last fs_unreadable ["d"] true false false).1
              (Counts 1 0 1 0, ∅) ["d"; "Documents"; "TXT"; "a.txt"]
              (Counts 2 0 1 0) ∅ (PermissionError ["s"; "a.txt"]))
    as (Hrun & Hout & Hframe).
  - vm_compute. reflexivity.
  - reflexivity.
  - vm_compute. reflexivity.
  - vm_compute. reflexivity.
  - vm_compute. reflexivity.
  - split_and!; [exact Hrun | exact Hout |].
    apply (Hframe bytes_A false); [vm_compute; reflexivity | discriminate |].
    vm_compute. reflexivity.
Defined.

(** C8 as stated fails: the digest of the unreadable file fails and is
    absorbed, but in copy mode the placement of that same file then
    fails, and the run stops without reaching the second file. *)
Lemma digest_failure_then_copy_aborts :
  let run := run_demo walk_unreadable fs_unreadable ["d"] true false true in
  file_sha1 demo_digest ["s"; "a.txt"] (State fs_unreadable [])
    = (State fs_unreadable [], Raise (PermissionError ["s"; "a.txt"])) ∧
  run.2 = Raise (PermissionError ["s"; "a.txt"]) ∧
  (∀ c, run.2 ≠ Ok c) ∧
  files run.1 !! ["d"; "Documents"; "TXT"; "a.txt"] = None ∧
  files run.1 !! ["d"; "Documents"; "TXT"; "b.txt"] = None.
Proof. cbv zeta. split_and!; try (vm_compute; reflexivity). intros c. vm_compute.
    discriminate. Qed.

(** In move mode the same file is placed although its digest failed. *)
Lemma digest_failure_treated_as_unique_witness :
  plan_entry PyStr.lower PyStr.upper demo_digest demo_today ["d"] false true
      DEFAULT_CATEGORIES
    ["s"; "a.txt"] (Counts 0 0 0 0) ∅ (State fs_unreadable [])
  = ((safe_destination ["d"] ["Documents"; "TXT"] "a.txt" (State fs_unreadable [])).1,
     Ok (Place ["d"; "Documents"; "TXT"; "a.txt"] (Counts 1 0 0 0) ∅)) ∧
  (run_demo walk_unreadable fs_unreadable ["d"] false false true).2
  = Ok (Counts 2 2 0 0).
Proof.
  split; [|vm_compute; reflexivity].
  refine (proj1 (digest_failure_treated_as_unique PyStr.lower PyStr.upper demo_digest
      demo_today ["d"]
                   false false false DEFAULT_CATEGORIES ["s"; "a.txt"] []
                   (Counts 0 0 0 0) ∅ (State fs_unreadable []) _ _
                   (PermissionError ["s"; "a.txt"]) _ _ _ _)).
  - vm_compute. discriminate.
  - vm_compute. reflexivity.
  - vm_compute. reflexivity.
  - vm_compute. reflexivity.
Defined.

(** C4 as stated fails: with [a.jpg] and [a (2).jpg] already there, two
    calls in a row return [a (1).jpg] and then [a (3).jpg]. *)
Lemma numbering_steps_over_taken_names :
  (place_same_name ["d"] ["Images"; "JPG"] "a.jpg" bytes_A 2 (State fs_gap [])).2
  = Ok [ ["d"; "Images"; "JPG"; "a (1).jpg"]; ["d"; "Images"; "JPG"; "a (3).jpg"] ] ∧
  (place_same_name ["d"] ["Images"; "JPG"] "a.jpg" bytes_A 2 (State fs_gap [])).2
  ≠ Ok [ ["d"; "Images"; "JPG"; "a (1).jpg"]; ["d"; "Images"; "JPG"; "a (2).jpg"] ].
Proof. split; [vm_compute; reflexivity | vm_compute; discriminate]. Qed.

Lemma fs_taken_no_numbered_name (j : nat) :
  1 ≤ j →
  fs_taken !! (["d"; "Images"; "JPG"] ++ [candidate_name "a.jpg" j]) = None.
Proof.
  intros Hj. destruct (fs_taken !! _) as [n|] eqn:Hn; [|done]. exfalso.
  unfold fs_taken in Hn. apply elem_of_list_to_map_2 in Hn.
  repeat (apply elem_of_cons in Hn as [Hn|Hn]; [simplify_eq|]).
  - simpl in H. injection H as H. apply (candidate_name_inj "a.jpg" j 0) in H. lia.
  - by apply elem_of_nil in Hn.
Qed.

Lemma safe_destination_fresh_and_ordered_witness :
  (place_same_name ["d"] ["Images"; "JPG"] "a.jpg" bytes_A 3 (State fs_taken [])).2
  = Ok [ ["d"; "Images"; "JPG"; "a (1).jpg"];
         ["d"; "Images"; "JPG"; "a (2).jpg"];
         ["d"; "Images"; "JPG"; "a (3).jpg"] ].
Proof.
  destruct (safe_destination_fresh_and_ordered ["d"] ["Images"; "JPG"] "a.jpg")
    as (_ & _ & H).
  destruct (H bytes_A 3 (State fs_taken [])) as (ks & st' & Hrun & _ & _ & _ & Hseq).
  { vm_compute. reflexivity. }
  rewrite Hrun, Hseq.
  - vm_compute. reflexivity.
  - intros j Hj. by apply fs_taken_no_numbered_name.
Defined.



Lemma walk_triple_files (p : path) :
  p ∈ walk_of walk_triple (files (State fs_triple [])) ["s"] →
  (∃ c, node_at (files (State fs_triple [])) p = Some (File c true)) ∧
  PurePath.relative_to p ["d"] = None.
Proof.
  unfold walk_of, walk_triple. intros Hp.
  repeat (apply elem_of_cons in Hp as [->|Hp]);
    [| | | by apply elem_of_nil in Hp];
    (split; [exists bytes_A; vm_compute; reflexivity | vm_compute; reflexivity]).
Qed.

Lemma walk_triple_NoDup :
  NoDup (walk_of walk_triple (files (State fs_triple [])) ["s"]).
Proof. apply (bool_decide_unpack _). vm_compute. exact I. Qed.







(** C7 as stated fails for an entry that is a directory: the walk
    yields [/s/out], which lies inside the destination root [/s/out], and
    no counter moves; the run ends with [skipped = 1] although two
    entries inside the destination root were reached. *)
Lemma directory_inside_dest_not_counted :
  is_Some (PurePath.relative_to ["s"; "out"] ["s"; "out"]) ∧
  organize_entry PyStr.lower PyStr.upper demo_digest demo_today ["s"; "out"] false false
      false false
    DEFAULT_CATEGORIES ["s"; "out"] (Counts 0 0 0 0, ∅) (State fs_overlap [])
  = (State fs_overlap [], Ok (Counts 0 0 0 0, ∅)) ∧
  (run_demo walk_overlap fs_overlap ["s"; "out"] false false false).2
  = Ok (Counts 0 0 0 1).
Proof. split_and!; [vm_compute; eauto | vm_compute; reflexivity..]. Qed.

(** ** Further properties on concrete runs *)

Lemma DEFAULT_CATEGORIES_nonempty (k v : string) :
  DEFAULT_CATEGORIES !! k = Some v → v ≠ "".
Proof.
  unfold DEFAULT_CATEGORIES. intros H. apply elem_of_list_to_map_2 in H.
  repeat (apply elem_of_cons in H as [H|H]; [by simplify_eq|]).
  by apply elem_of_nil in H.
Qed.

Lemma DEFAULT_CATEGORIES_plain (k v : string) :
  DEFAULT_CATEGORIES !! k = Some v → v ≠ "" ∧ PurePath.plain_part v = true.
Proof.
  unfold DEFAULT_CATEGORIES. intros H. apply elem_of_list_to_map_2 in H.
  repeat (apply elem_of_cons in H as [H|H]; [by simplify_eq|]).
  by apply elem_of_nil in H.
Qed.

Lemma lower_agrees_on_ascii : PyStr.agrees_on_ascii PyStr.lower PyStr.lower.
Proof. by intros s _. Qed.

Lemma upper_agrees_on_ascii : PyStr.agrees_on_ascii PyStr.upper PyStr.upper.
Proof. by intros s _. Qed.

Lemma plan_rel_dir_shape_witness :
  ∃ folder,
    plan_rel_dir PyStr.upper demo_today "Images" true
      (PyStr.lower (PurePath.suffix ["s"; "a.jpg"]))
    = ["Images"; demo_today; folder] ∧
    String "." folder = ".JPG".
Proof.
  destruct (plan_rel_dir_shape PyStr.lower PyStr.upper demo_today "Images" true
              ["s"; "a.jpg"] lower_agrees_on_ascii upper_agrees_on_ascii)
    as (folder & Hdir & _ & _ & _ & Hext).
  - vm_compute. reflexivity.
  - vm_compute. reflexivity.
  - vm_compute. reflexivity.
  - exists folder. split; [exact Hdir|]. apply Hext. vm_compute. discriminate.
Defined.

Lemma safe_destination_stopped_by_file_in_the_way_witness :
  ∃ st' e,
    safe_destination ["d"] ["Images"; "JPG"] "a.jpg" (State fs_blocked [])
    = (st', Raise e) ∧
    is_os_error e = true ∧ out st' = [] ∧ fs_blocked ⊆ files st'.
Proof.
  apply (safe_destination_stopped_by_file_in_the_way ["d"] ["Images"; "JPG"] "a.jpg"
           (State fs_blocked []) ["d"; "Images"] bytes_B true).
  - by exists ["JPG"].
  - vm_compute. reflexivity.
Defined.

Lemma alt_name_keeps_suffix_witness :
  PurePath.suffix_of "a.jpg" ≠ "" ∧
  PurePath.suffix_of
    (alt_name (PurePath.stem_of "a.jpg") (PurePath.suffix_of "a.jpg") 1)
  = PurePath.suffix_of "a.jpg" ∧
  category_for PyStr.lower (["d"] ++ [alt_name (PurePath.stem_of "a.jpg")
                            (PurePath.suffix_of "a.jpg") 1]) DEFAULT_CATEGORIES
  = category_for PyStr.lower (["s"] ++ ["a.jpg"]) DEFAULT_CATEGORIES.
Proof.
  assert (H : PurePath.suffix_of "a.jpg" ≠ "") by (vm_compute; discriminate).
  split; [exact H|].
  destruct (alt_name_keeps_suffix PyStr.lower "a.jpg" 1 ["s"] ["d"] DEFAULT_CATEGORIES H)
    as (Hs & _ & Hc).
  split; [exact Hs | exact Hc].
Defined.

Lemma safe_destination_postconditions_witness :
  let st' := (safe_destination ["d"] ["Images"; "JPG"] "a.jpg" (State fs_taken [])).1 in
  parent ["d"; "Images"; "JPG"; "a (1).jpg"] = ["d"; "Images"; "JPG"] ∧
  node_at (files st') ["d"; "Images"; "JPG"] = Some Dir ∧
  fs_taken ⊆ files st' ∧
  out st' = [].
Proof.
  cbv zeta.
  destruct (safe_destination_postconditions ["d"] ["Images"; "JPG"] "a.jpg"
              (State fs_taken [])
              (safe_destination ["d"] ["Images"; "JPG"] "a.jpg" (State fs_taken [])).1
              ["d"; "Images"; "JPG"; "a (1).jpg"])
    as (Hparent & Hdir & _ & Hsub & _ & Hout).
  - vm_compute. reflexivity.
  - split_and!; [exact Hparent | exact Hdir | exact Hsub | exact Hout].
Defined.

Lemma copy_and_dry_run_keep_every_entry_witness :
  files (run_demo walk_two fs_two ["d"] true false false).1 !! ["s"; "a.jpg"]
  = Some (File bytes_A true).
Proof.
  apply (copy_and_dry_run_keep_every_entry PyStr.lower PyStr.upper demo_digest demo_today
      (walk_of walk_two)
           ["s"] ["d"] true false false false DEFAULT_CATEGORIES (State fs_two [])
           (run_demo walk_two fs_two ["d"] true false false).1
           (run_demo walk_two fs_two ["d"] true false false).2).
  - left. reflexivity.
  - unfold run_demo. by destruct (organize _ _ _ _ _ _ _ _ _ _ _).
  - vm_compute. reflexivity.
Defined.

Lemma move_or_copy_after_placing_witness :
  move_or_copy ["s"; "a.jpg"] ["s"; "c.jpg"] false false (State fs_two [])
  = ((shutil_move ["s"; "a.jpg"] ["s"; "c.jpg"] (State fs_two [])).1, Raise IndexError) ∧
  files (shutil_move ["s"; "a.jpg"] ["s"; "c.jpg"] (State fs_two [])).1 !! ["s"; "c.jpg"]
  = Some (File bytes_A true).
Proof.
  split; [|vm_compute; reflexivity].
  rewrite (move_or_copy_after_placing ["s"; "a.jpg"] ["s"; "c.jpg"] false
             (State fs_two [])
             (shutil_move ["s"; "a.jpg"] ["s"; "c.jpg"] (State fs_two [])).1).
  - reflexivity.
  - vm_compute. reflexivity.
Defined.

Lemma no_IndexError_inside_a_run_witness :
  run_demo walk_unreadable fs_unreadable ["d"] true false false
  = ((run_demo walk_unreadable fs_unreadable ["d"] true false false).1,
     Raise (PermissionError ["s"; "a.txt"])) ∧
  PermissionError ["s"; "a.txt"] ≠ IndexError.
Proof.
  assert (Hrun : run_demo walk_unreadable fs_unreadable ["d"] true false false
    = ((run_demo walk_unreadable fs_unreadable ["d"] true false false).1,
       Raise (PermissionError ["s"; "a.txt"]))).
  { vm_compute. reflexivity. }
  split; [exact Hrun|].
  apply (no_IndexError_inside_a_run PyStr.lower PyStr.upper demo_digest demo_today
           (walk_of walk_unreadable) ["s"] ["d"] true false false false
           DEFAULT_CATEGORIES (State fs_unreadable [])
           (run_demo walk_unreadable fs_unreadable ["d"] true false false).1
           (PermissionError ["s"; "a.txt"])
           lower_agrees_on_ascii upper_agrees_on_ascii).
  - repeat constructor.
  - exact DEFAULT_CATEGORIES_plain.
  - vm_compute. reflexivity.
  - exact Hrun.
Defined.

Lemma run_triple_returns :
  organize PyStr.lower PyStr.upper demo_digest demo_today (walk_of walk_triple) ["s"] ["d"]
    true false false true DEFAULT_CATEGORIES (State fs_triple [])
  = ((run_demo walk_triple fs_triple ["d"] true false true).1, Ok (Counts 3 0 1 2)).
Proof. vm_compute. reflexivity. Qed.

Lemma one_line_per_processed_file_witness :
  length (out (run_demo walk_triple fs_triple ["d"] true false true).1)
  = length (out (State fs_triple [])) + processed (Counts 3 0 1 2).
Proof.
  exact (one_line_per_processed_file PyStr.lower PyStr.upper demo_digest demo_today
      (walk_of walk_triple)
           ["s"] ["d"] true false false true DEFAULT_CATEGORIES (State fs_triple [])
           _ (Counts 3 0 1 2) run_triple_returns).
Defined.

Lemma counters_bounded_by_walk_witness :
  processed (Counts 3 0 1 2) ≤ 3 ∧
  moved (Counts 3 0 1 2) + copied (Counts 3 0 1 2) + skipped (Counts 3 0 1 2) ≤ 3 ∧
  moved (Counts 3 0 1 2) = 0.
Proof.
  destruct (counters_bounded_by_walk PyStr.lower PyStr.upper demo_digest demo_today
      (walk_of walk_triple)
              ["s"] ["d"] true false false true DEFAULT_CATEGORIES (State fs_triple [])
              _ (Counts 3 0 1 2) run_triple_returns)
    as (Hp & Hsum & Hmoved & _).
  split_and!; [exact Hp | exact Hsum | apply Hmoved; by left].
Defined.

Lemma walk_inside_dest_changes_nothing_witness :
  run_demo walk_overlap fs_overlap ["s"; "out"] false false true
  = (State fs_overlap [], Ok (Counts 0 0 0 1)).
Proof.
  unfold run_demo.
  rewrite (walk_inside_dest_changes_nothing PyStr.lower PyStr.upper demo_digest demo_today
      (walk_of walk_overlap)
             ["s"] ["s"; "out"] false false false true DEFAULT_CATEGORIES
             (State fs_overlap [])).
  - vm_compute. reflexivity.
  - vm_compute. reflexivity.
  - unfold walk_of, walk_overlap. repeat constructor; vm_compute; eauto.
Defined.

Lemma dedupe_places_one_per_digest_witness :
  processed (Counts 3 0 1 2) = 3 ∧
  skipped (Counts 3 0 1 2)
  + size (list_to_set (digest_of demo_digest fs_triple <$> walk_triple) : gset string)
  = 3 ∧
  moved (Counts 3 0 1 2) + copied (Counts 3 0 1 2)
  = size (list_to_set (digest_of demo_digest fs_triple <$> walk_triple) : gset string).
Proof.
  destruct (dedupe_places_one_per_digest PyStr.lower PyStr.upper demo_digest demo_today
      (walk_of walk_triple)
              demo_digest_nonempty ["d"] true false false DEFAULT_CATEGORIES ["s"]
              (State fs_triple []) _ (Counts 3 0 1 2)
              walk_triple_NoDup walk_triple_files run_triple_returns)
    as (Hp & Hs & Hm).
  split_and!; [exact Hp | exact Hs | exact (Hm eq_refl)].
Defined.

Lemma walk_two_files (p : path) :
  p ∈ walk_of walk_two (files (State fs_two [])) ["s"] →
  (∃ c r, node_at (files (State fs_two [])) p = Some (File c r)) ∧
  PurePath.relative_to p ["d"] = None.
Proof.
  unfold walk_of, walk_two. intros Hp.
  repeat (apply elem_of_cons in Hp as [->|Hp]); [| | by apply elem_of_nil in Hp].
  - split; [exists bytes_A, true; vm_compute; reflexivity | vm_compute; reflexivity].
  - split; [exists bytes_B, true; vm_compute; reflexivity | vm_compute; reflexivity].
Qed.

Lemma plain_run_relocates_every_file_witness :
  ∃ lines dst,
    out (run_demo walk_two fs_two ["d"] false false false).1 = [] ++ lines ∧
    lines !! 1 = Some (OkLine false ["s"; "b.txt"] dst) ∧
    fs_two !! dst = None ∧
    files (run_demo walk_two fs_two ["d"] false false false).1 !! dst
    = Some (File bytes_B true) ∧
    ∀ c r, files (run_demo walk_two fs_two ["d"] false false false).1 !! ["s"; "b.txt"]
           ≠ Some (File c r).
Proof.
  destruct (plain_run_relocates_every_file PyStr.lower PyStr.upper demo_digest demo_today
      (walk_of walk_two)
              ["d"] false false DEFAULT_CATEGORIES ["s"] (State fs_two [])
              (run_demo walk_two fs_two ["d"] false false false).1 (Counts 2 2 0 0))
    as (lines & Hout & _ & _ & Hidx).
  - intros k v Hkv. by destruct (DEFAULT_CATEGORIES_plain k v Hkv).
  - vm_compute. reflexivity.
  - apply (bool_decide_unpack _). vm_compute. exact I.
  - exact walk_two_files.
  - vm_compute. reflexivity.
  - destruct (Hidx 1 ["s"; "b.txt"] bytes_B true eq_refl)
      as (dst & Hline & _ & Hfree & Hthere & Hgone).
    + vm_compute. reflexivity.
    + exists lines, dst. split_and!;
        [exact Hout | exact Hline | exact Hfree | exact Hthere | exact Hgone].
Defined.

Lemma planned_destination_layout_witness :
  ∃ folder k,
    ["d"; "Images"; "JPG"; "a.jpg"]
    = ["d"] ++ PurePath.of_parts (["Images"] ++ []) ++ [folder]
      ++ [candidate_name "a.jpg" k] ∧
    folder ≠ "".
Proof.
  destruct (planned_destination_layout PyStr.lower PyStr.upper demo_digest demo_today
      ["d"] false false
              DEFAULT_CATEGORIES ["s"; "a.jpg"] (Counts 0 0 0 0) (Counts 1 0 0 0) ∅ ∅
              (State fs_two [])
              (plan_entry PyStr.lower PyStr.upper demo_digest demo_today ["d"] false false
                  DEFAULT_CATEGORIES
                 ["s"; "a.jpg"] (Counts 0 0 0 0) ∅ (State fs_two [])).1
              ["d"; "Images"; "JPG"; "a.jpg"]
              lower_agrees_on_ascii upper_agrees_on_ascii)
    as (folder & k & Hfinal & Hne & _).
  - vm_compute. reflexivity.
  - intros k v Hkv. by destruct (DEFAULT_CATEGORIES_plain k v Hkv).
  - vm_compute. reflexivity.
  - vm_compute. reflexivity.
  - exists folder, k. split; [exact Hfinal | exact Hne].
Defined.

Lemma main_prints_summary_after_run_witness :
  ∃ st1 c,
    run_demo walk_two fs_two ["d"] false false false = (st1, Ok c) ∧
    length (out (main PyStr.lower PyStr.upper demo_digest demo_today (walk_of walk_two)
                   (Args ["s"] ["d"] false false false false) (State fs_two [])).1)
    = 0 + processed c + 5.
Proof.
  pose proof (main_prints_summary_after_run PyStr.lower PyStr.upper demo_digest demo_today
      (walk_of walk_two)
                (Args ["s"] ["d"] false false false false) (State fs_two [])
                (main PyStr.lower PyStr.upper demo_digest demo_today (walk_of walk_two)
                   (Args ["s"] ["d"] false false false false) (State fs_two [])).1
                (Ok tt)) as H.
  destruct H as (st1 & c & Hrun & _ & _ & Hlen).
  - vm_compute. reflexivity.
  - exists st1, c. split; [exact Hrun | exact Hlen].
Defined.

Lemma skipped_duplicate_stays_in_place_witness :
  files (run_demo walk_triple fs_triple ["d"] false false true).1 !! ["s"; "y.png"]
  = Some (File bytes_A true) ∧
  files (run_demo walk_triple fs_triple ["d"] false false true).1 !! ["s"; "x.png"]
  = None.
Proof.
  split; [|vm_compute; reflexivity].
  apply (skipped_duplicate_stays_in_place PyStr.lower PyStr.upper demo_digest demo_today
      (walk_of walk_triple)
           demo_digest_nonempty ["d"] false false false DEFAULT_CATEGORIES ["s"]
           (State fs_triple []) _ (Counts 3 1 0 2) 1 ["s"; "y.png"] bytes_A).
  - exact walk_triple_NoDup.
  - exact walk_triple_files.
  - vm_compute. reflexivity.
  - reflexivity.
  - vm_compute. reflexivity.
  - vm_compute. left.
Defined.
